(** * Travlr: the authentication flow of the REST API, embedded in Rocq

    The development follows the API sources:
    - [app_api/models/user.js]: the [users] schema, its pre-save hook and the
      methods [setPassword], [validPassword] and [generateJwt];
    - [app_api/config/passport.js]: the local strategy;
    - [app_api/controllers/authentication.js]: [register] and [login];
    - [app_api/controllers/trips.js]: [tripsList] and [tripsFindByCode].

    JavaScript strings are modelled as [string], a character standing for
    the code unit of its number (U+0000 to U+00FF), Node [Buffer]s as
    [list byte], time values as [Z]
    (milliseconds since the epoch).  A handler is a computation in a state
    monad over the world it runs against: the two collections, the entropy
    source and the log of the operations sent to the database.  Writes to
    the console are left out.

    Third-party primitives the program only calls (PBKDF2, HMAC, the e-mail
    validator and normaliser, the JSON codec) and the configuration of the
    host (its time zone, the signing secret) are the fields of the class
    [Platform]. *)

From Stdlib Require Import ZArith NArith List Bool Ascii String Lia.
From Stdlib Require Import Strings.Byte.
Import ListNotations.

Open Scope string_scope.

(** ** JavaScript string primitives used by the schema and the hook *)

Module JsString.

(** White space removed by [String.prototype.trim], among the characters
    U+0000 to U+00FF: TAB, LF, VT, FF, CR, SPACE and NO-BREAK SPACE. *)
Definition isWhiteSpace (c : ascii) : bool :=
  let n := N_of_ascii c in
  ((9 <=? n) && (n <=? 13) || (n =? 32) || (n =? 160))%N.

Fixpoint trimStart (s : string) : string :=
  match s with
  | EmptyString => EmptyString
  | String c r => if isWhiteSpace c then trimStart r else s
  end.

Fixpoint trimEnd (s : string) : string :=
  match s with
  | EmptyString => EmptyString
  | String c r =>
      match trimEnd r with
      | EmptyString => if isWhiteSpace c then EmptyString else String c EmptyString
      | r' => String c r'
      end
  end.

Definition trim (s : string) : string := trimEnd (trimStart s).

(** The upper-case letters among the characters U+0000 to U+00FF: A to Z,
    and U+00C0 to U+00DE except the multiplication sign U+00D7. *)
Definition isUpperCase (c : ascii) : bool :=
  let n := N_of_ascii c in
  ((65 <=? n) && (n <=? 90)
   || (192 <=? n) && (n <=? 222) && negb (n =? 215))%N.

(** [String.prototype.toLowerCase] on one character: an upper-case letter
    becomes the letter 32 places on. *)
Definition lowerChar (c : ascii) : ascii :=
  if isUpperCase c then ascii_of_N (N_of_ascii c + 32) else c.

Fixpoint toLowerCase (s : string) : string :=
  match s with
  | EmptyString => EmptyString
  | String c r => String (lowerChar c) (toLowerCase r)
  end.

(** [str.replace(/c/g, rep)] for a one-character pattern. *)
Fixpoint replaceAll (c : ascii) (rep : string) (s : string) : string :=
  match s with
  | EmptyString => EmptyString
  | String x r =>
      if Ascii.eqb x c then rep ++ replaceAll c rep r
      else String x (replaceAll c rep r)
  end.

(** Every character of [s] satisfies [p]. *)
Fixpoint allChars (p : ascii -> bool) (s : string) : bool :=
  match s with
  | EmptyString => true
  | String c r => p c && allChars p r
  end.

(** Some character of [s] satisfies [p]. *)
Fixpoint anyChar (p : ascii -> bool) (s : string) : bool :=
  match s with
  | EmptyString => false
  | String c r => p c || anyChar p r
  end.

(** Character-wise substitution, the one-pass form of a chain of
    [replaceAll]. *)
Fixpoint substChars (f : ascii -> string) (s : string) : string :=
  match s with
  | EmptyString => EmptyString
  | String c r => f c ++ substChars f r
  end.

(** Strings that start, respectively end, in something other than white
    space. *)
Definition startsClean (s : string) : bool :=
  match s with EmptyString => true | String c _ => negb (isWhiteSpace c) end.

Fixpoint endsClean (s : string) : bool :=
  match s with
  | EmptyString => true
  | String c EmptyString => negb (isWhiteSpace c)
  | String _ r => endsClean r
  end.

(** The strings [trim] leaves alone. *)
Definition trimmed (s : string) : bool := startsClean s && endsClean s.

(** The strings that hold no upper-case letter. *)
Definition lowercased (s : string) : bool :=
  allChars (fun c => negb (isUpperCase c)) s.

(** [s.startsWith(p)] *)
Fixpoint startsWith (p s : string) : bool :=
  match p, s with
  | EmptyString, _ => true
  | String a p', String b s' => Ascii.eqb a b && startsWith p' s'
  | String _ _, EmptyString => false
  end.

(** JavaScript truthiness of a string: only the empty string is falsy. *)
Definition truthyString (s : string) : bool :=
  match s with EmptyString => false | _ => true end.

End JsString.

(** ** The [validator] package: [escape] *)

Module Validator.
Import JsString.

(** [validator.escape]: eight successive global replacements, in the
    package's order. *)
Definition escape (str : string) : string :=
  replaceAll "`" "&#96;"
   (replaceAll "\" "&#x5C;"
    (replaceAll "/" "&#x2F;"
     (replaceAll ">" "&gt;"
      (replaceAll "<" "&lt;"
       (replaceAll "'" "&#x27;"
        (replaceAll "034" "&quot;"
         (replaceAll "&" "&amp;" str))))))).

(** What [escape] does to a single character. *)
Definition escapeChar (c : ascii) : string := escape (String c EmptyString).

(** The characters [escape] rewrites. *)
Definition escapable (c : ascii) : bool :=
  negb (String.eqb (escapeChar c) (String c EmptyString)).

(** The markup characters of HTML, the ampersand apart: less-than,
    greater-than, the two quotes, slash, backslash and backtick. *)
Definition markupChar (c : ascii) : bool :=
  existsb (Ascii.eqb c) ["<"; ">"; "034"; "'"; "/"; "\"; "`"]%char.

(** The eight character references of HTML that stand for the ampersand
    and the markup characters. *)
Definition entities : list string :=
  ["&amp;"; "&quot;"; "&#x27;"; "&lt;"; "&gt;"; "&#x2F;"; "&#x5C;"; "&#96;"].

(** The entity [s] starts with, if any. *)
Definition entityAt (s : string) : option string :=
  find (fun e => startsWith e s) entities.

(** HTML-escaped text, read off the characters from left to right: no
    markup character occurs, and every ampersand opens one of the eight
    entities.  [skip] counts the characters of the entity being read. *)
Fixpoint escapedFrom (skip : nat) (s : string) : bool :=
  match s with
  | EmptyString => true
  | String c r =>
      match skip with
      | S k => escapedFrom k r
      | O =>
          if Ascii.eqb c "&" then
            match entityAt s with
            | Some e => escapedFrom (String.length e - 1) r
            | None => false
            end
          else negb (markupChar c) && escapedFrom 0 r
      end
  end.

Definition escaped (s : string) : bool := escapedFrom 0 s.

End Validator.

(** ** Node [Buffer]s and their hexadecimal rendering *)

Module Buffer.

Definition Buffer := list byte.

(** The total inverse of [Byte.to_N] on [0, 255]. *)
Definition byteOfN (n : N) : byte :=
  match Byte.of_N n with Some b => b | None => x00 end.

(** [Buffer.from(str)]: the characters of [str] as bytes. *)
Definition from (str : string) : Buffer := list_byte_of_string str.

Definition hexDigit (n : N) : ascii :=
  if (n <? 10)%N then ascii_of_N (48 + n) else ascii_of_N (87 + n).

Definition hexByte (b : byte) : string :=
  let n := Byte.to_N b in
  String (hexDigit (n / 16)) (String (hexDigit (n mod 16)) EmptyString).

(** [buf.toString("hex")]: two lower-case digits per byte. *)
Fixpoint toHex (buf : Buffer) : string :=
  match buf with
  | [] => EmptyString
  | b :: r => hexByte b ++ toHex r
  end.

Definition hexVal (c : ascii) : option N :=
  let n := N_of_ascii c in
  if ((48 <=? n) && (n <=? 57))%N then Some (n - 48)%N
  else if ((97 <=? n) && (n <=? 102))%N then Some (n - 87)%N
  else None.

(** [Buffer.from(str, "hex")] on well-formed input; the reading direction of
    [toHex]. *)
Fixpoint fromHex (s : string) : option Buffer :=
  match s with
  | EmptyString => Some []
  | String _ EmptyString => None
  | String h (String l r) =>
      match hexVal h, hexVal l, fromHex r with
      | Some a, Some b, Some t => Some (byteOfN (16 * a + b) :: t)
      | _, _, _ => None
      end
  end.

End Buffer.

(** ** Base64url without padding (RFC 4648, section 5), as JWTs use it *)

Module Base64Url.
Import Buffer.

Definition alphabet : string :=
  "ABCDEFGHIJKLMNOPQRSTUVWXYZabcdefghijklmnopqrstuvwxyz0123456789-_".

Definition digit (n : N) : ascii :=
  match String.get (N.to_nat n) alphabet with
  | Some c => c
  | None => "A"%char
  end.

Fixpoint indexOf (c : ascii) (s : string) : option N :=
  match s with
  | EmptyString => None
  | String x r =>
      if Ascii.eqb x c then Some 0%N
      else option_map N.succ (indexOf c r)
  end.

Definition value (c : ascii) : option N := indexOf c alphabet.

Definition isDigit (c : ascii) : bool :=
  match value c with Some _ => true | None => false end.

Fixpoint encode (buf : Buffer) : string :=
  match buf with
  | [] => EmptyString
  | [a] =>
      let n := Byte.to_N a in
      String (digit (n / 4)) (String (digit ((n mod 4) * 16)) EmptyString)
  | [a; b] =>
      let n := (Byte.to_N a * 256 + Byte.to_N b)%N in
      String (digit (n / 1024))
        (String (digit ((n / 16) mod 64))
           (String (digit ((n mod 16) * 4)) EmptyString))
  | a :: b :: c :: r =>
      let n := (Byte.to_N a * 65536 + Byte.to_N b * 256 + Byte.to_N c)%N in
      String (digit (n / 262144))
        (String (digit ((n / 4096) mod 64))
           (String (digit ((n / 64) mod 64))
              (String (digit (n mod 64)) (encode r))))
  end.

Fixpoint decode (s : string) : option Buffer :=
  match s with
  | EmptyString => Some []
  | String _ EmptyString => None
  | String c0 (String c1 EmptyString) =>
      match value c0, value c1 with
      | Some v0, Some v1 => Some [byteOfN (v0 * 4 + v1 / 16)]
      | _, _ => None
      end
  | String c0 (String c1 (String c2 EmptyString)) =>
      match value c0, value c1, value c2 with
      | Some v0, Some v1, Some v2 =>
          let n := (v0 * 1024 + v1 * 16 + v2 / 4)%N in
          Some [byteOfN (n / 256); byteOfN (n mod 256)]
      | _, _, _ => None
      end
  | String c0 (String c1 (String c2 (String c3 r))) =>
      match value c0, value c1, value c2, value c3, decode r with
      | Some v0, Some v1, Some v2, Some v3, Some t =>
          let n := (v0 * 262144 + v1 * 4096 + v2 * 64 + v3)%N in
          Some (byteOfN (n / 65536) :: byteOfN ((n / 256) mod 256)
                  :: byteOfN (n mod 256) :: t)
      | _, _, _, _, _ => None
      end
  end.

End Base64Url.
(** ** ECMAScript time values and the [Date] methods the model uses *)

Module EcmaDate.
Open Scope Z_scope.

Definition msPerDay : Z := 86400000.

Definition Day (t : Z) : Z := t / msPerDay.
Definition TimeWithinDay (t : Z) : Z := t mod msPerDay.

Definition DayFromYear (y : Z) : Z :=
  365 * (y - 1970) + (y - 1969) / 4 - (y - 1901) / 100 + (y - 1601) / 400.

(** 1 in a leap year, 0 otherwise. *)
Definition leapYear (y : Z) : Z :=
  if negb (y mod 4 =? 0) then 0
  else if negb (y mod 100 =? 0) then 1
  else if negb (y mod 400 =? 0) then 0
  else 1.

(** The largest year whose first day is not after [t]: an estimate from the
    mean year length, corrected by at most one year. *)
Definition YearFromTime (t : Z) : Z :=
  let d := Day t in
  let y := 1970 + (d * 400) / 146097 in
  if DayFromYear (y + 1) <=? d then y + 1
  else if DayFromYear y <=? d then y
  else y - 1.

Definition DayWithinYear (t : Z) : Z := Day t - DayFromYear (YearFromTime t).
Definition InLeapYear (t : Z) : Z := leapYear (YearFromTime t).

(** Days of the year before month [m] (0 = January). *)
Definition daysBeforeMonth (m leap : Z) : Z :=
  match m with
  | 0 => 0
  | 1 => 31
  | 2 => 59 + leap
  | 3 => 90 + leap
  | 4 => 120 + leap
  | 5 => 151 + leap
  | 6 => 181 + leap
  | 7 => 212 + leap
  | 8 => 243 + leap
  | 9 => 273 + leap
  | 10 => 304 + leap
  | _ => 334 + leap
  end.

Definition MonthFromTime (t : Z) : Z :=
  let d := DayWithinYear t in
  let leap := InLeapYear t in
  if d <? 31 then 0
  else if d <? 59 + leap then 1
  else if d <? 90 + leap then 2
  else if d <? 120 + leap then 3
  else if d <? 151 + leap then 4
  else if d <? 181 + leap then 5
  else if d <? 212 + leap then 6
  else if d <? 243 + leap then 7
  else if d <? 273 + leap then 8
  else if d <? 304 + leap then 9
  else if d <? 334 + leap then 10
  else 11.

Definition DateFromTime (t : Z) : Z :=
  DayWithinYear t - daysBeforeMonth (MonthFromTime t) (InLeapYear t) + 1.

Definition MakeDay (year month date : Z) : Z :=
  let ym := year + month / 12 in
  let mn := month mod 12 in
  DayFromYear ym + daysBeforeMonth mn (leapYear ym) + date - 1.

Definition MakeDate (day time : Z) : Z := day * msPerDay + time.

Section LocalTime.
(** [LocalTZA t isUTC]: the host's offset from UTC, in milliseconds, at
    the UTC instant [t] ([isUTC = true]) or at the local time [t]. *)
Variable LocalTZA : Z -> bool -> Z.

Definition LocalTime (t : Z) : Z := t + LocalTZA t true.
Definition UTC (t : Z) : Z := t - LocalTZA t false.

(** [Date.prototype.getDate] *)
Definition getDate (t : Z) : Z := DateFromTime (LocalTime t).

(** [Date.prototype.setDate], on a time value inside the range
    [TimeClip] accepts. *)
Definition setDate (t dt : Z) : Z :=
  let lt := LocalTime t in
  UTC (MakeDate (MakeDay (YearFromTime lt) (MonthFromTime lt) dt)
                (TimeWithinDay lt)).
End LocalTime.

(** [Date.prototype.getTime] *)
Definition getTime (t : Z) : Z := t.

(** [parseInt(x / 1000, 10)] for a time value [x]: the decimal rendering
    of the quotient read up to the decimal point, that is truncation. *)
Definition parseIntSeconds (x : Z) : Z := Z.quot x 1000.

End EcmaDate.

(** ** Data model *)

Module Model.
Import Buffer.

(** A MongoDB [ObjectId], in its hexadecimal rendering. *)
Definition ObjectId := string.

(** A document of the [users] collection.  A path that was never assigned
    is [undefined], here [None]. *)
Record User := mkUser {
  _id : ObjectId;
  email : option string;
  name : option string;
  hash : option string;
  salt : option string
}.

(** A document of the [trips] collection. *)
Record Trip := mkTrip {
  code : string;
  tripName : string;
  tripLength : string;
  start : string;
  resort : string;
  perPerson : string;
  image : string;
  description : string
}.

(** The payload [generateJwt] hands to [jwt.sign]. *)
Record Claims := mkClaims {
  claim_id : ObjectId;
  claim_email : option string;
  claim_name : option string;
  claim_exp : Z
}.

(** The parsed JSON body of a request to [/register] or [/login]: each of
    the three fields is absent or holds a string. *)
Record Body := mkBody {
  body_name : option string;
  body_email : option string;
  body_password : option string
}.

(** Errors a handler can catch. *)
Inductive Error :=
| ValidationError (messages : list string)
| DuplicateKeyError (path : string)
| TypeError (message : string)
| JsError (message : string).

(** What [res.json] is given. *)
Inductive Json :=
| JMessage (message : string)
| JToken (token : string)
| JError (err : Error)
| JTrips (docs : list Trip).

Record Response := mkResponse { status : Z; json : Json }.

(** The [token] property of a response body, when it has one. *)
Definition tokenOf (j : Json) : option string :=
  match j with JToken t => Some t | _ => None end.

(** The result of a query that resolves to [null] or to an object. *)
Inductive JsValue (A : Type) :=
| JsNull
| JsObject (a : A).
Arguments JsNull {A}.
Arguments JsObject {A} a.

(** JavaScript truthiness: [null] is falsy, every object (an empty array
    included) is truthy. *)
Definition truthy {A} (v : JsValue A) : bool :=
  match v with JsNull => false | JsObject _ => true end.

(** Truthiness of a body field: [undefined] and the empty string are
    falsy. *)
Definition truthyField (f : option string) : bool :=
  match f with None => false | Some s => JsString.truthyString s end.

(** A call that returns or throws. *)
Inductive Completion (A : Type) :=
| Return (a : A)
| Throw (e : Error).
Arguments Return {A} a.
Arguments Throw {A} e.

(** The entropy source behind [crypto.randomBytes] and [ObjectId]: an
    unbounded supply of bytes and the position of the next unread one. *)
Record Entropy := mkEntropy { source : nat -> byte; cursor : nat }.

(** Operations sent to the database, most recent first. *)
Inductive StoreOp :=
| OpFindOneUser (emailFilter : string)
| OpInsertUser (doc : User)
| OpFindTrips (codeFilter : option string).

(** The state a request handler runs against. *)
Record World := mkWorld {
  users : list User;
  trips : list Trip;
  entropy : Entropy;
  oplog : list StoreOp
}.

(** Third-party primitives and process configuration. *)
Class Platform := {
  (** [crypto.pbkdf2Sync(password, salt, iterations, keylen, digest)] *)
  pbkdf2Sync : string -> string -> Z -> Z -> string -> Buffer;
  (** HMAC with SHA-256: key, then message *)
  hmacSha256 : Buffer -> Buffer -> Buffer;
  (** [validator.isEmail] *)
  isEmail : string -> bool;
  (** [validator.normalizeEmail(_, { all_lowercase: true })], its result
      as cast to the [String] path it is assigned to *)
  normalizeEmail : string -> string;
  JSON_stringify : Claims -> string;
  JSON_parse : string -> option Claims;
  (** the host's time zone, see [EcmaDate.LocalTZA] *)
  LocalTZA : Z -> bool -> Z;
  (** [process.env.JWT_SECRET] *)
  JWT_SECRET : string
}.

End Model.

(** ** A state monad over [World] *)

Module Monad.
Import Model.

Definition M (A : Type) : Type := World -> A * World.

Definition ret {A} (a : A) : M A := fun w => (a, w).

Definition bind {A B} (m : M A) (k : A -> M B) : M B :=
  fun w => let (a, w') := m w in k a w'.

(** The world once [op] has been sent to the database. *)
Definition logged (op : StoreOp) (w : World) : World :=
  mkWorld (users w) (trips w) (entropy w) (op :: oplog w).

Definition logOp (op : StoreOp) : M unit := fun w => (tt, logged op w).

Definition getUsers : M (list User) := fun w => (users w, w).
Definition getTrips : M (list Trip) := fun w => (trips w, w).

Definition putUsers (us : list User) : M unit :=
  fun w => (tt, mkWorld us (trips w) (entropy w) (oplog w)).

(** [crypto.randomBytes(n)] *)
Definition randomBytes (n : nat) : M Buffer.Buffer :=
  fun w =>
    let e := entropy w in
    (map (source e) (seq (cursor e) n),
     mkWorld (users w) (trips w) (mkEntropy (source e) (cursor e + n)) (oplog w)).

Definition run {A} (m : M A) (w : World) : A * World := m w.

End Monad.

Declare Scope monad_scope.
Delimit Scope monad_scope with monad.
Notation "x <- m ;; k" := (Monad.bind m (fun x => k))
  (at level 61, m at next level, right associativity) : monad_scope.
Notation "m ;;; k" := (Monad.bind m (fun _ => k))
  (at level 61, right associativity) : monad_scope.

(** ** JSON Web Tokens *)

Module Jwt.
Import Model Buffer.

Definition quote : string := String "034" EmptyString.

(** The JOSE header of an HS256 token. *)
Definition header : string :=
  "{" ++ quote ++ "alg" ++ quote ++ ":" ++ quote ++ "HS256" ++ quote ++ ","
      ++ quote ++ "typ" ++ quote ++ ":" ++ quote ++ "JWT" ++ quote ++ "}".

(** [str.split(sep)] for a one-character separator. *)
Fixpoint splitOn (sep : ascii) (s : string) : list string :=
  match s with
  | EmptyString => [EmptyString]
  | String c r =>
      if Ascii.eqb c sep then EmptyString :: splitOn sep r
      else match splitOn sep r with
           | [] => [String c EmptyString]
           | x :: xs => String c x :: xs
           end
  end.

Definition notDot (c : ascii) : bool := negb (Ascii.eqb c ".").

Section WithPlatform.
Context {env : Platform}.

(** Modelled from the spec: [jwt.sign] of the [jsonwebtoken] package,
    which the repository only calls.  "Token format: three dot-separated
    base64url segments (header, claims, signature), HS256-signed". *)
Definition sign (payload : Claims) (secret : string) : string :=
  let signingInput :=
    Base64Url.encode (from header) ++ "."
      ++ Base64Url.encode (from (JSON_stringify payload)) in
  signingInput ++ "."
    ++ Base64Url.encode (hmacSha256 (from secret) (from signingInput)).

(** The three segments of a token signed by [sign]. *)
Definition headerSegment : string := Base64Url.encode (from header).
Definition payloadSegment (c : Claims) : string :=
  Base64Url.encode (from (JSON_stringify c)).
Definition signatureSegment (c : Claims) (secret : string) : string :=
  Base64Url.encode
    (hmacSha256 (from secret)
       (from (headerSegment ++ "." ++ payloadSegment c))).

(** Modelled from the spec: the validator behind the [express-jwt]
    middleware [auth] of the router, configured with the same secret and
    [algorithms: ["HS256"]].  "verifies the signature against the secret
    key and checks the expiry claim against the current time; returns the
    decoded claims only if both checks pass".  [now] is the time value of
    the check. *)
Definition validate (token secret : string) (now : Z) : option Claims :=
  match splitOn "." token with
  | [h; p; sg] =>
      if String.eqb h (Base64Url.encode (from header))
         && String.eqb sg
              (Base64Url.encode
                 (hmacSha256 (from secret) (from (h ++ "." ++ p))))
      then
        match Base64Url.decode p with
        | Some buf =>
            match JSON_parse (string_of_list_byte buf) with
            | Some c =>
                if (now / 1000 <? claim_exp c)%Z then Some c else None
            | None => None
            end
        | None => None
        end
      else None
  | _ => None
  end.
End WithPlatform.

End Jwt.

(** ** [app_api/models/user.js] *)

Module UserModel.
Import Model Monad JsString.
Local Open Scope monad_scope.

(** The schema's setters, run on every assignment to the path and on query
    filters: [lowercase: true, trim: true] for [email], [trim: true] for
    [name]. *)
Definition emailSetter (v : string) : string := trim (toLowerCase v).
Definition nameSetter (v : string) : string := trim v.

Definition set_email (u : User) (v : string) : User :=
  mkUser (_id u) (Some (emailSetter v)) (name u) (hash u) (salt u).

Definition set_name (u : User) (v : string) : User :=
  mkUser (_id u) (email u) (Some (nameSetter v)) (hash u) (salt u).

Definition set_salt (u : User) (v : string) : User :=
  mkUser (_id u) (email u) (name u) (hash u) (Some v).

Definition set_hash (u : User) (v : string) : User :=
  mkUser (_id u) (email u) (name u) (Some v) (salt u).

(** An address that lower-casing and trimming leave alone. *)
Definition canonicalEmail (e : string) : Prop :=
  toLowerCase e = e /\ trim e = e.

(** The form of a persisted name, read off its characters: it is not
    empty, neither starts nor ends in white space, holds no markup
    character, and every ampersand in it opens an entity. *)
Definition canonicalName (n : string) : Prop :=
  n <> EmptyString
  /\ trimmed n = true
  /\ allChars (fun c => negb (Validator.markupChar c)) n = true
  /\ Validator.escaped n = true.

(** The form of a persisted document: both paths are assigned; the
    [email] holds no upper-case letter and neither starts nor ends in
    white space, so that lower-casing and trimming leave it alone; the
    [name] is as above. *)
Definition canonical (u : User) : Prop :=
  exists e n,
    email u = Some e /\ name u = Some n
    /\ lowercased e = true /\ trimmed e = true /\ canonicalEmail e
    /\ canonicalName n.

(** [new User()]: a document with a fresh [_id] and no path assigned. *)
Definition newUser : M User :=
  oid <- randomBytes 12 ;;
  ret (mkUser (Buffer.toHex oid) None None None None).

Section WithPlatform.
Context {env : Platform}.

(** [userSchema.pre("save", ...)].  The hook runs after validation, so
    both paths are assigned when it reads them. *)
Definition preSave (u : User) : User :=
  let u1 :=
    match email u with
    | Some e => set_email u (normalizeEmail e)
    | None => u
    end in
  match name u1 with
  | Some n => set_name u1 (Validator.escape (trim n))
  | None => u1
  end.

(** The [email] under which a registration that gave the address [raw]
    is persisted: set on assignment, rewritten by the hook, set again. *)
Definition persistedEmail (raw : string) : string :=
  emailSetter (normalizeEmail (emailSetter raw)).

(** The bytes [setPassword] draws for the salt: the next 16 unread bytes
    of the entropy source. *)
Definition saltBytes (w : World) : Buffer.Buffer :=
  map (source (entropy w)) (seq (cursor (entropy w)) 16).

(** The key derivation both password methods call. *)
Definition derive (password salt : string) : Buffer.Buffer :=
  pbkdf2Sync password salt 100000 64 "sha512".

(** [userSchema.methods.setPassword] *)
Definition setPassword (u : User) (password : string) : M User :=
  bytes <- randomBytes 16 ;;
  let u1 := set_salt u (Buffer.toHex bytes) in
  ret (set_hash u1
         (Buffer.toHex
            (pbkdf2Sync password (Buffer.toHex bytes) 100000 64 "sha512"))).

(** [userSchema.methods.validPassword]; [pbkdf2Sync] throws on an
    [undefined] salt. *)
Definition validPassword (u : User) (password : string) : Completion bool :=
  match salt u with
  | None => Throw (TypeError "The salt argument must be of type string")
  | Some s =>
      let h := Buffer.toHex (pbkdf2Sync password s 100000 64 "sha512") in
      Return
        match hash u with
        | Some stored => String.eqb stored h
        | None => false
        end
  end.

(** The expiry date of [generateJwt]: [new Date()] read as [now], then
    [expiry.setDate(expiry.getDate() + 7)]. *)
Definition expiryDate (now : Z) : Z :=
  let expiry := now in
  EcmaDate.setDate LocalTZA expiry (EcmaDate.getDate LocalTZA expiry + 7).

(** The change of the zone offset between [now] and the local time seven
    days on. *)
Definition offsetDrift (now : Z) : Z :=
  (LocalTZA now true
   - LocalTZA (now + LocalTZA now true + 7 * EcmaDate.msPerDay) false)%Z.

(** The object literal [generateJwt] passes to [jwt.sign]. *)
Definition jwtPayload (u : User) (now : Z) : Claims :=
  mkClaims (_id u) (email u) (name u)
    (EcmaDate.parseIntSeconds (EcmaDate.getTime (expiryDate now))).

(** [userSchema.methods.generateJwt]; [now] is the time value
    [new Date()] reads from the clock. *)
Definition generateJwt (u : User) (now : Z) : string :=
  Jwt.sign (jwtPayload u now) JWT_SECRET.

(** The schema's validators, run by [save] before the pre-save hooks:
    [required] and [validate] on [email], [required] and [maxlength] on
    [name]. *)
Definition validateEmail (u : User) : list string :=
  match email u with
  | None | Some EmptyString => ["Path `email` is required."]
  | Some e => if isEmail e then [] else ["Please enter a valid email"]
  end.

Definition validateName (u : User) : list string :=
  match name u with
  | None | Some EmptyString => ["Path `name` is required."]
  | Some n =>
      if (String.length n <=? 50)%nat then []
      else ["Name must be less than 50 characters"]
  end.

Definition validateSync (u : User) : list string :=
  validateEmail u ++ validateName u.

Definition optEqb (a b : option string) : bool :=
  match a, b with
  | Some x, Some y => String.eqb x y
  | None, None => true
  | _, _ => false
  end.

(** The unique indexes of the collection: [_id], and [email]
    ([unique: true]). *)
Definition sameId (d u : User) : bool := String.eqb (_id d) (_id u).
Definition sameEmail (d u : User) : bool := optEqb (email d) (email u).

(** The world after a successful insertion of [d]. *)
Definition inserted (d : User) (w : World) : World :=
  mkWorld (users w ++ [d]) (trips w) (entropy w) (OpInsertUser d :: oplog w).

(** The insertion [save] ends with: rejected by the store on a duplicate
    key, otherwise the document is appended. *)
Definition insertOne (u : User) : M (Completion unit) :=
  logOp (OpInsertUser u) ;;;
  us <- getUsers ;;
  if existsb (fun d => sameId d u) us then
    ret (Throw (DuplicateKeyError "_id"))
  else if existsb (fun d => sameEmail d u) us then
    ret (Throw (DuplicateKeyError "email"))
  else
    putUsers (us ++ [u]) ;;; ret (Return tt).

(** [user.save()] for a new document. *)
Definition save (u : User) : M (Completion unit) :=
  match validateSync u with
  | [] => insertOne (preSave u)
  | errs => ret (Throw (ValidationError errs))
  end.

(** The first document of [us] whose [email] is the filter value, cast
    through the schema path. *)
Definition lookup (us : list User) (username : string) : option User :=
  find (fun d => optEqb (email d) (Some (emailSetter username))) us.

(** [User.findOne({ email: username }).exec()]: the filter is cast
    through the schema path; the first match in collection order, or
    [null].  This is the answer of a database that resolves the query. *)
Definition findOne (username : string) : M (Completion (JsValue User)) :=
  logOp (OpFindOneUser (emailSetter username)) ;;;
  us <- getUsers ;;
  ret (Return
         match lookup us username with
         | Some d => JsObject d
         | None => JsNull
         end).
End WithPlatform.

End UserModel.

(** ** [app_api/config/passport.js] *)

Module Passport.
Import Model Monad UserModel.
Local Open Scope monad_scope.

(** What the verify function passes to [done]. *)
Inductive Done :=
| DoneError (err : Error)
| DoneFalse (message : string)
| DoneUser (user : User).

(** The arguments [passport.authenticate] passes to its callback. *)
Record CallbackArgs := mkArgs {
  cb_err : option Error;
  cb_user : option User;
  cb_info : option string
}.

Section WithPlatform.
Context {env : Platform}.

(** The verify function given to [new LocalStrategy]. *)
Definition verify (username password : string) : M Done :=
  q <- findOne username ;;
  match q with
  | Throw err => ret (DoneError err)
  | Return JsNull => ret (DoneFalse "Incorrect username.")
  | Return (JsObject user) =>
      match validPassword user password with
      | Throw err => ret (DoneError err)
      | Return false => ret (DoneFalse "Incorrect password.")
      | Return true => ret (DoneUser user)
      end
  end.

(** [passport.authenticate("local", callback)(req, res)] with
    [usernameField: "email"]: the strategy reads the credentials from the
    body, fails on a missing one, and otherwise reports what the verify
    function decided. *)
Definition authenticate {A} (callback : CallbackArgs -> M A) (req : Body) : M A :=
  match body_email req, body_password req with
  | Some username, Some password =>
      if JsString.truthyString username && JsString.truthyString password then
        d <- verify username password ;;
        match d with
        | DoneError err => callback (mkArgs (Some err) None None)
        | DoneFalse info => callback (mkArgs None None (Some info))
        | DoneUser user => callback (mkArgs None (Some user) None)
        end
      else callback (mkArgs None None (Some "Missing credentials"))
  | _, _ => callback (mkArgs None None (Some "Missing credentials"))
  end.
End WithPlatform.

End Passport.

(** ** [app_api/controllers/authentication.js] *)

Module Authentication.
Import Model Monad UserModel.
Local Open Scope monad_scope.

(** The answer to a request that lacks a required field. *)
Definition allFieldsRequired : Response :=
  mkResponse 400 (JMessage "All fields required").

Section WithPlatform.
Context {env : Platform}.

Definition fieldValue (f : option string) : string :=
  match f with Some s => s | None => EmptyString end.

(** The part of [register] between the check of the fields and the call
    of [generateJwt]: the document it builds. *)
Definition buildUser (req : Body) : M User :=
  user <- newUser ;;
  let user := set_name user (fieldValue (body_name req)) in
  let user := set_email user (fieldValue (body_email req)) in
  setPassword user (fieldValue (body_password req)).

(** [register]; [now] is the clock reading of the request. *)
Definition register (req : Body) (now : Z) : M Response :=
  if negb (truthyField (body_name req))
     || negb (truthyField (body_email req))
     || negb (truthyField (body_password req))
  then ret (mkResponse 400 (JMessage "All fields required"))
  else
    user <- newUser ;;
    let user := set_name user (fieldValue (body_name req)) in
    let user := set_email user (fieldValue (body_email req)) in
    user <- setPassword user (fieldValue (body_password req)) ;;
    let token := generateJwt user now in
    r <- save user ;;
    match r with
    | Return _ => ret (mkResponse 200 (JToken token))
    | Throw err => ret (mkResponse 400 (JError err))
    end.

(** The callback [login] gives to [passport.authenticate]. *)
Definition loginCallback (now : Z) (a : Passport.CallbackArgs) : M Response :=
  match Passport.cb_err a with
  | Some err => ret (mkResponse 404 (JError err))
  | None =>
      match Passport.cb_user a with
      | Some user =>
          let token := generateJwt user now in
          ret (mkResponse 200 (JToken token))
      | None =>
          ret (mkResponse 401
                 (JMessage (fieldValue (Passport.cb_info a))))
      end
  end.

(** [login] *)
Definition login (req : Body) (now : Z) : M Response :=
  if negb (truthyField (body_email req))
     || negb (truthyField (body_password req))
  then ret (mkResponse 400 (JMessage "All fields required"))
  else Passport.authenticate (loginCallback now) req.
End WithPlatform.

End Authentication.

(** ** [app_api/controllers/trips.js]: the two read handlers *)

Module Trips.
Import Model Monad.
Local Open Scope monad_scope.

(** [Model.find(filter).exec()]: always an array, empty when nothing
    matches. *)
Definition Model_find (codeFilter : option string) : M (JsValue (list Trip)) :=
  logOp (OpFindTrips codeFilter) ;;;
  ts <- getTrips ;;
  ret (JsObject
         match codeFilter with
         | None => ts
         | Some c => filter (fun t => String.eqb (code t) c) ts
         end).

(** [res.json(q)] for a query result. *)
Definition jsonOfQuery (q : JsValue (list Trip)) : Json :=
  JTrips match q with JsObject docs => docs | JsNull => [] end.

(** [tripsList] *)
Definition tripsList : M Response :=
  q <- Model_find None ;;
  if negb (truthy q) then
    let err := JsError "No trips found" in
    ret (mkResponse 404 (JError err))
  else
    ret (mkResponse 200 (jsonOfQuery q)).

(** [tripsFindByCode]; [tripCode] is [req.params.tripCode]. *)
Definition tripsFindByCode (tripCode : string) : M Response :=
  q <- Model_find (Some tripCode) ;;
  if negb (truthy q) then
    let err := JsError "Trip not found" in
    ret (mkResponse 404 (JError err))
  else
    ret (mkResponse 200 (jsonOfQuery q)).

End Trips.

(** ** [app_api/routes/index.js]: the public routes *)

Module Router.
Import Model Monad.

Inductive Request :=
| PostLogin (body : Body)
| PostRegister (body : Body)
| GetTrips
| GetTripByCode (tripCode : string).

(** The condition both handlers test first: a required body field is
    [undefined] or empty. *)
Definition missingFields (r : Request) : bool :=
  match r with
  | PostRegister body =>
      negb (truthyField (body_name body))
      || negb (truthyField (body_email body))
      || negb (truthyField (body_password body))
  | PostLogin body =>
      negb (truthyField (body_email body))
      || negb (truthyField (body_password body))
  | GetTrips | GetTripByCode _ => false
  end.

Section WithPlatform.
Context {env : Platform}.

Definition handle (r : Request) (now : Z) : M Response :=
  match r with
  | PostLogin body => Authentication.login body now
  | PostRegister body => Authentication.register body now
  | GetTrips => Trips.tripsList
  | GetTripByCode c => Trips.tripsFindByCode c
  end.

(** The world after serving the requests of [rs] in order, each paired
    with its clock reading. *)
Fixpoint serve (rs : list (Request * Z)) (w : World) : World :=
  match rs with
  | [] => w
  | (r, now) :: rest => serve rest (snd (handle r now w))
  end.
End WithPlatform.

End Router.

(** ** A concrete platform, for running the model *)

Module Demo.
Import Model Buffer JsString.

(** [validator.normalizeEmail] with its default options on the addresses
    of the examples below.  The address is split at its last '@' and the
    domain lower-cased.  For gmail.com and googlemail.com the local part
    loses its sub-address (what follows the first '+') and its single
    dots, is lower-cased, and the domain becomes gmail.com; an address
    left without local part yields [false], which the path casts to the
    string "false".  For another domain the local part is lower-cased.
    The package's rules for iCloud, Outlook, Yahoo and Yandex addresses
    are not reproduced: no example uses such an address. *)
Fixpoint beforePlus (s : string) : string :=
  match s with
  | EmptyString => EmptyString
  | String c r => if Ascii.eqb c "+" then EmptyString else String c (beforePlus r)
  end.

(** [s.replace(/\.+/g, m => m.length > 1 ? m : '')]; [afterDot] tells
    whether the character before [s] was a dot. *)
Fixpoint removeLoneDots (afterDot : bool) (s : string) : string :=
  match s with
  | EmptyString => EmptyString
  | String c r =>
      if Ascii.eqb c "." then
        if afterDot || startsWith "." r then String c (removeLoneDots true r)
        else removeLoneDots true r
      else String c (removeLoneDots false r)
  end.

Fixpoint joinAt (parts : list string) : string :=
  match parts with
  | [] => EmptyString
  | [a] => a
  | a :: rest => a ++ "@" ++ joinAt rest
  end.

Definition normalize (address : string) : string :=
  let rawParts := Jwt.splitOn "@" address in
  let domain := toLowerCase (last rawParts EmptyString) in
  let user := joinAt (removelast rawParts) in
  if String.eqb domain "gmail.com" || String.eqb domain "googlemail.com" then
    match removeLoneDots false (beforePlus user) with
    | EmptyString => "false"
    | user' => toLowerCase user' ++ "@gmail.com"
    end
  else toLowerCase user ++ "@" ++ domain.

Definition showField (f : option string) : string :=
  match f with Some s => s | None => EmptyString end.

Definition readField (s : string) : option string :=
  match s with EmptyString => None | _ => Some s end.

(** A line-oriented rendering of the claims. *)
Definition stringify (c : Claims) : string :=
  let nl := String "010" EmptyString in
  claim_id c ++ nl ++ showField (claim_email c) ++ nl
    ++ showField (claim_name c) ++ nl
    ++ Buffer.toHex (map (fun i => byteOfN (Z.to_N (claim_exp c / 256 ^ Z.of_nat i) mod 256))
                         (rev (seq 0 8))).

Definition parse (s : string) : option Claims :=
  match Jwt.splitOn "010" s with
  | [i; e; n; x] =>
      match Buffer.fromHex x with
      | Some bytes =>
          Some (mkClaims i (readField e) (readField n)
                  (fold_left (fun acc b => acc * 256 + Z.of_N (Byte.to_N b)) bytes 0)%Z)
      | None => None
      end
  | _ => None
  end.

Definition platform : Platform := {|
  pbkdf2Sync := fun password salt _ _ _ => from (salt ++ "$" ++ password);
  hmacSha256 := fun key message => (key ++ message)%list;
  isEmail := anyChar (Ascii.eqb "@");
  normalizeEmail := normalize;
  JSON_stringify := stringify;
  JSON_parse := parse;
  LocalTZA := fun _ _ => 0%Z;
  JWT_SECRET := "demo-secret"
|}.

(** The zone offsets of a host on US Eastern time around the change to
    daylight saving time of 10 March 2024 (02:00 local, 07:00 UTC). *)
Definition easternTZA (t : Z) (isUTC : bool) : Z :=
  let change := (if isUTC then 1710054000000 else 1710036000000)%Z in
  if (t <? change)%Z then (-18000000)%Z else (-14400000)%Z.

Definition eastern : Platform := {|
  pbkdf2Sync := pbkdf2Sync (Platform := platform);
  hmacSha256 := hmacSha256 (Platform := platform);
  isEmail := isEmail (Platform := platform);
  normalizeEmail := normalizeEmail (Platform := platform);
  JSON_stringify := stringify;
  JSON_parse := parse;
  LocalTZA := easternTZA;
  JWT_SECRET := "demo-secret"
|}.

Definition bob : User :=
  mkUser "65e70a3f2b1c4d5e6f708192" (Some "bob@example.com") (Some "Bob")
    None None.

Definition world0 : World :=
  mkWorld [] [] (mkEntropy (fun i => byteOfN (N.of_nat (7 * i + 3) mod 256)) 0) [].

Definition alice : Body :=
  mkBody (Some " Alice <A&B> ") (Some " Alice+Travel@Gmail.COM ") (Some "correct horse").

(** A clock reading: 2024-03-05T12:00:00Z. *)
Definition noon : Z := 1709640000000.

(** A stored document whose password is "tea", and a world holding it. *)
Definition carol : User :=
  Eval vm_compute in
    fst (UserModel.setPassword (env := platform)
           (mkUser "65e70a3f2b1c4d5e6f7081a0" (Some "carol@gmail.com")
              (Some "Carol") None None)
           "tea" world0).

Definition world1 : World := mkWorld [carol] [] (entropy world0) [].

Definition carolAgain : Body :=
  mkBody (Some "Carol") (Some " Carol+Shop@Gmail.com ") (Some "coffee").

Definition carolWrong : Body :=
  mkBody None (Some "Carol@Gmail.com") (Some "coffee").

Definition nobody : Body :=
  mkBody None (Some "nobody@example.com") (Some "tea").

Definition noPassword : Body := mkBody None (Some "carol@gmail.com") None.

End Demo.

(** ** [app_api/controllers/trips.js]: [getUser] *)

Module TripsGate.
Import Model Monad UserModel.
Local Open Scope monad_scope.

(** What a call of [getUser] comes to: nothing is sent and the callback is
    not run; [getUser] answers itself; or the callback is run. *)
Inductive Outcome (A : Type) :=
| Unanswered
| Answered (r : Response)
| Continued (a : A).
Arguments Unanswered {A}.
Arguments Answered {A} r.
Arguments Continued {A} a.

Definition userNotFound : Response :=
  mkResponse 404 (JMessage "User not found").

(** [req.auth && req.auth.email], for [req.auth] the decoded claims of the
    bearer token, when the request has any. *)
Definition authEmail (auth : option Claims) : option string :=
  match auth with
  | Some c => if truthyField (claim_email c) then claim_email c else None
  | None => None
  end.

Section WithPlatform.
Context {env : Platform}.

(** [getUser(req, res, callback)]; the callback is given [user.name]. *)
Definition getUser {A} (auth : option Claims)
    (callback : option string -> M A) : M (Outcome A) :=
  match authEmail auth with
  | Some address =>
      q <- findOne address ;;
      match q with
      | Throw _ => ret (Answered userNotFound)
      | Return JsNull => ret (Answered userNotFound)
      | Return (JsObject user) =>
          a <- callback (name user) ;;
          ret (Continued a)
      end
  | None => ret Unanswered
  end.
End WithPlatform.

End TripsGate.

(** ** [atob]: the forgiving base64 decoder of browsers *)

Module Base64.
Import Model Buffer.

Definition alphabet : string :=
  "ABCDEFGHIJKLMNOPQRSTUVWXYZabcdefghijklmnopqrstuvwxyz0123456789+/".

Definition value (c : ascii) : option N := Base64Url.indexOf c alphabet.

(** ASCII white space: TAB, LF, FF, CR and SPACE. *)
Definition isAsciiWhitespace (c : ascii) : bool :=
  let n := N_of_ascii c in
  ((n =? 9) || (n =? 10) || (n =? 12) || (n =? 13) || (n =? 32))%N.

Fixpoint removeWhitespace (s : string) : string :=
  match s with
  | EmptyString => EmptyString
  | String c r =>
      if isAsciiWhitespace c then removeWhitespace r
      else String c (removeWhitespace r)
  end.

(** Removes a final '=', if there is one. *)
Fixpoint dropFinalEquals (s : string) : string :=
  match s with
  | EmptyString => EmptyString
  | String c EmptyString => if Ascii.eqb c "=" then EmptyString else s
  | String c r => String c (dropFinalEquals r)
  end.

(** The groups of four digits, the last one of two or three; left-over
    bits are discarded. *)
Fixpoint decodeGroups (s : string) : option Buffer :=
  match s with
  | EmptyString => Some []
  | String _ EmptyString => None
  | String c0 (String c1 EmptyString) =>
      match value c0, value c1 with
      | Some v0, Some v1 => Some [byteOfN (v0 * 4 + v1 / 16)]
      | _, _ => None
      end
  | String c0 (String c1 (String c2 EmptyString)) =>
      match value c0, value c1, value c2 with
      | Some v0, Some v1, Some v2 =>
          let n := (v0 * 1024 + v1 * 16 + v2 / 4)%N in
          Some [byteOfN (n / 256); byteOfN (n mod 256)]
      | _, _, _ => None
      end
  | String c0 (String c1 (String c2 (String c3 r))) =>
      match value c0, value c1, value c2, value c3, decodeGroups r with
      | Some v0, Some v1, Some v2, Some v3, Some t =>
          let n := (v0 * 262144 + v1 * 4096 + v2 * 64 + v3)%N in
          Some (byteOfN (n / 65536) :: byteOfN ((n / 256) mod 256)
                  :: byteOfN (n mod 256) :: t)
      | _, _, _, _, _ => None
      end
  end.

Definition invalidCharacter : Error :=
  JsError "InvalidCharacterError".

(** The two base64url digits that are no base64 digits, and the base64url
    digits that are. *)
Definition urlOnly (c : ascii) : bool :=
  Ascii.eqb c "-" || Ascii.eqb c "_".

Definition commonDigit (c : ascii) : bool :=
  Base64Url.isDigit c && negb (urlOnly c).

(** [atob(data)]: white space is removed; when the length is a multiple
    of four, one or two final '=' are removed; a length of 1 modulo 4 or a
    character outside the alphabet is an error. *)
Definition atob (data : string) : Completion string :=
  let data := removeWhitespace data in
  let data :=
    if (String.length data mod 4 =? 0)%nat
    then dropFinalEquals (dropFinalEquals data)
    else data in
  if (String.length data mod 4 =? 1)%nat then Throw invalidCharacter
  else
    match decodeGroups data with
    | Some buf => Return (string_of_list_byte buf)
    | None => Throw invalidCharacter
    end.

End Base64.

(** ** [app_admin/src/app/services/authentication.service.ts] *)

Module AdminClient.
Import Model.

(** The browser's storage: the value of each key, if it has one. *)
Definition Storage := string -> option string.

Definition getItem (st : Storage) (key : string) : option string := st key.

Definition setItem (st : Storage) (key value : string) : Storage :=
  fun k => if String.eqb k key then Some value else st k.

Definition removeItem (st : Storage) (key : string) : Storage :=
  fun k => if String.eqb k key then None else st k.

(** The object [getCurrentUser] returns. *)
Record CurrentUser := mkCurrentUser {
  user_email : option string;
  user_name : option string
}.

(** [getToken] *)
Definition getToken (st : Storage) : option string :=
  getItem st "travlr-token".

(** [saveToken] *)
Definition saveToken (st : Storage) (token : string) : Storage :=
  setItem st "travlr-token" token.

(** [logout] *)
Definition logout (st : Storage) : Storage :=
  removeItem st "travlr-token".

(** [token.split(".")[1]], as [atob] reads its argument: a missing
    element is [undefined], which [atob] takes as the string
    "undefined". *)
Definition secondSegment (token : string) : string :=
  match nth_error (Jwt.splitOn "." token) 1 with
  | Some s => s
  | None => "undefined"
  end.

Definition syntaxError : Error := JsError "SyntaxError".

Section WithPlatform.
Context {env : Platform}.

(** [JSON.parse(atob(token.split(".")[1]))] *)
Definition payloadOf (token : string) : Completion Claims :=
  match Base64.atob (secondSegment token) with
  | Throw e => Throw e
  | Return text =>
      match JSON_parse text with
      | Some c => Return c
      | None => Throw syntaxError
      end
  end.

(** [isLoggedIn]; [now] is [Date.now()].  The comparison
    [payload.exp > Date.now() / 1000] is made on the thousandfold. *)
Definition isLoggedIn (st : Storage) (now : Z) : Completion bool :=
  match getToken st with
  | None => Return false
  | Some token =>
      match payloadOf token with
      | Throw e => Throw e
      | Return payload => Return (now <? 1000 * claim_exp payload)%Z
      end
  end.

(** [getCurrentUser] *)
Definition getCurrentUser (st : Storage) (now : Z)
    : Completion (option CurrentUser) :=
  match isLoggedIn st now with
  | Throw e => Throw e
  | Return false => Return None
  | Return true =>
      match getToken st with
      | None => Return None
      | Some token =>
          match payloadOf token with
          | Throw e => Throw e
          | Return payload =>
              Return (Some (mkCurrentUser (claim_email payload)
                              (claim_name payload)))
          end
      end
  end.
End WithPlatform.

(** [login] and [register] once the server has answered: a 2xx answer
    resolves the request and its [token] is saved; any other status
    rejects it and nothing is saved. *)
Definition storeAnswer (st : Storage) (res : Response) : Completion Storage :=
  if ((200 <=? status res) && (status res <? 300))%Z then
    Return (saveToken st
              match tokenOf (json res) with
              | Some t => t
              | None => "undefined"
              end)
  else Throw (JsError "HttpErrorResponse").

End AdminClient.

(** ** Properties of the stored documents *)

Module StoreProps.
Import Model UserModel.

(** A document with the credentials [setPassword] stores. *)
Definition credentialed (u : User) : Prop :=
  exists s h,
    salt u = Some s /\ hash u = Some h
    /\ String.length s = 32 /\ String.length h mod 2 = 0.

(** The keys of the two unique indexes are pairwise distinct. *)
Definition uniqueKeys (us : list User) : Prop :=
  NoDup (map _id us) /\ NoDup (map email us).

End StoreProps.

(** ** More requests and tokens for the concrete platform *)

Module Scenario.
Import Model Monad Demo.

Definition carolRight : Body :=
  mkBody None (Some " CAROL@gmail.com") (Some "tea").

(** The address is preceded by a no-break space and followed by a
    space. *)
Definition aliceUpper : Body :=
  mkBody None (Some (String "160" "ALICE@gmail.com ")) (Some "correct horse").

Definition aliceAsRegistered : Body :=
  mkBody None (Some " Alice+Travel@Gmail.COM ") (Some "correct horse").

(** The name is a space, a no-break space and a tabulation. *)
Definition eve : Body :=
  mkBody (Some (String " " (String "160" (String "009" EmptyString))))
    (Some "not an address") (Some "pw").

(** A user whose token has a '_' in its payload segment. *)
Definition dan : User :=
  mkUser "65e70a3f2b1c4d5e6f708193" (Some "dan@example.com") (Some "Dan?")
    None None.

(** A collection holding a document without credentials, and a login
    with its address. *)
Definition bobOnly : World := mkWorld [bob] [] (entropy world0) [].

Definition bobLogin : Body :=
  mkBody None (Some "Bob@example.com") (Some "secret").

Definition emptyStorage : AdminClient.Storage := fun _ => None.

Definition requests : list (Router.Request * Z) :=
  [(Router.PostRegister alice, noon); (Router.PostLogin carolWrong, noon);
   (Router.PostRegister carolAgain, noon); (Router.GetTrips, noon)].

End Scenario.

(** * Properties *)

(** Linear arithmetic with quotients and remainders by constants. *)
Ltac divlia := zify; Z.to_euclidean_division_equations; lia.

(** ** Strings *)

Module JsStringFacts.
Import JsString.

Lemma append_nil_r (s : string) : s ++ EmptyString = s.
Proof. induction s as [|c r IH]; simpl; [reflexivity | now rewrite IH]. Qed.

Lemma append_assoc (a b c : string) : (a ++ b) ++ c = a ++ (b ++ c).
Proof. induction a as [|x r IH]; simpl; [reflexivity | now rewrite IH]. Qed.

Lemma length_append (a b : string) :
  String.length (a ++ b) = String.length a + String.length b.
Proof. induction a as [|x r IH]; simpl; [reflexivity | now rewrite IH]. Qed.

(** A property of all 256 characters, settled by enumeration. *)
Ltac by_cases_on_char c :=
  destruct c as [[] [] [] [] [] [] [] []]; try reflexivity; try discriminate.

Lemma trimStart_startsClean s : startsClean (trimStart s) = true.
Proof.
  induction s as [|c r IH]; simpl; [reflexivity|].
  destruct (isWhiteSpace c) eqn:E; [exact IH | simpl; now rewrite E].
Qed.

Lemma trimStart_fixed s : startsClean s = true -> trimStart s = s.
Proof.
  destruct s as [|c r]; simpl; [reflexivity|].
  now destruct (isWhiteSpace c).
Qed.

Lemma trimEnd_fixed s : endsClean s = true -> trimEnd s = s.
Proof.
  induction s as [|c r IH]; [reflexivity|].
  destruct r as [|d r'].
  - simpl. now destruct (isWhiteSpace c).
  - intros E. change (endsClean (String d r') = true) in E.
    change (trimEnd (String c (String d r')))
      with (match trimEnd (String d r') with
            | EmptyString =>
                if isWhiteSpace c then EmptyString else String c EmptyString
            | r0 => String c r0
            end).
    now rewrite (IH E).
Qed.

Lemma trimEnd_endsClean s : endsClean (trimEnd s) = true.
Proof.
  induction s as [|c r IH]; [reflexivity|].
  simpl. destruct (trimEnd r) as [|d r'] eqn:E.
  - destruct (isWhiteSpace c) eqn:W; simpl; [reflexivity | now rewrite W].
  - exact IH.
Qed.

Lemma trimEnd_startsClean s : startsClean s = true -> startsClean (trimEnd s) = true.
Proof.
  destruct s as [|c r]; [reflexivity|].
  simpl. intros W. destruct (trimEnd r).
  - apply negb_true_iff in W. rewrite W. simpl. now rewrite W.
  - exact W.
Qed.

Lemma trim_trimmed s : trimmed (trim s) = true.
Proof.
  unfold trimmed, trim. apply andb_true_iff. split.
  - apply trimEnd_startsClean, trimStart_startsClean.
  - apply trimEnd_endsClean.
Qed.

Lemma trim_fixed s : trimmed s = true -> trim s = s.
Proof.
  unfold trimmed, trim. intros E. apply andb_true_iff in E as [A B].
  rewrite (trimStart_fixed _ A). now apply trimEnd_fixed.
Qed.

Lemma trim_idempotent s : trim (trim s) = trim s.
Proof. apply trim_fixed, trim_trimmed. Qed.

Lemma lowerChar_idempotent c : lowerChar (lowerChar c) = lowerChar c.
Proof. by_cases_on_char c. Qed.

Lemma isWhiteSpace_lowerChar c : isWhiteSpace (lowerChar c) = isWhiteSpace c.
Proof. by_cases_on_char c. Qed.

Lemma toLowerCase_idempotent s : toLowerCase (toLowerCase s) = toLowerCase s.
Proof.
  induction s as [|c r IH]; simpl; [reflexivity|].
  now rewrite lowerChar_idempotent, IH.
Qed.

Lemma toLowerCase_trimStart s : toLowerCase (trimStart s) = trimStart (toLowerCase s).
Proof.
  induction s as [|c r IH]; simpl; [reflexivity|].
  rewrite isWhiteSpace_lowerChar. now destruct (isWhiteSpace c).
Qed.

Lemma toLowerCase_trimEnd s : toLowerCase (trimEnd s) = trimEnd (toLowerCase s).
Proof.
  induction s as [|c r IH]; simpl; [reflexivity|].
  rewrite <- IH, isWhiteSpace_lowerChar.
  destruct (trimEnd r); simpl; [now destruct (isWhiteSpace c) | reflexivity].
Qed.

Lemma toLowerCase_trim s : toLowerCase (trim s) = trim (toLowerCase s).
Proof. unfold trim. now rewrite toLowerCase_trimEnd, toLowerCase_trimStart. Qed.

Lemma isUpperCase_lowerChar c : isUpperCase (lowerChar c) = false.
Proof. by_cases_on_char c. Qed.

(** Lower-casing leaves no upper-case letter. *)
Lemma toLowerCase_lowercased s : lowercased (toLowerCase s) = true.
Proof.
  unfold lowercased.
  induction s as [|c r IH]; cbn [toLowerCase allChars]; [reflexivity|].
  now rewrite isUpperCase_lowerChar, IH.
Qed.

Lemma lowercased_fixed s : lowercased s = true -> toLowerCase s = s.
Proof.
  unfold lowercased.
  induction s as [|c r IH]; cbn [toLowerCase allChars]; [reflexivity|].
  intros E. apply andb_true_iff in E as [A B]. apply negb_true_iff in A.
  rewrite (IH B). unfold lowerChar. now rewrite A.
Qed.

Lemma allChars_trimStart p s :
  allChars p s = true -> allChars p (trimStart s) = true.
Proof.
  induction s as [|c r IH]; cbn [trimStart]; [reflexivity|].
  intros E. destruct (isWhiteSpace c); [|exact E].
  cbn [allChars] in E. apply andb_true_iff in E as [_ B]. now apply IH.
Qed.

Lemma allChars_trimEnd p s :
  allChars p s = true -> allChars p (trimEnd s) = true.
Proof.
  induction s as [|c r IH]; cbn [trimEnd allChars]; [reflexivity|].
  intros E. apply andb_true_iff in E as [A B]. specialize (IH B).
  destruct (trimEnd r) as [|d r'].
  - destruct (isWhiteSpace c); cbn [allChars]; [reflexivity|].
    now rewrite A.
  - cbn [allChars] in *. now rewrite A, IH.
Qed.

(** Trimming only removes characters. *)
Lemma allChars_trim p s : allChars p s = true -> allChars p (trim s) = true.
Proof. intros E. unfold trim. now apply allChars_trimEnd, allChars_trimStart. Qed.

End JsStringFacts.

(** ** [validator.escape] *)

Module ValidatorFacts.
Import JsString Validator JsStringFacts.

Lemma replaceAll_append c rep a b :
  replaceAll c rep (a ++ b) = replaceAll c rep a ++ replaceAll c rep b.
Proof.
  induction a as [|x r IH]; simpl; [reflexivity|].
  destruct (Ascii.eqb x c); simpl; rewrite IH;
    [now rewrite append_assoc | reflexivity].
Qed.

Lemma escape_append a b : escape (a ++ b) = escape a ++ escape b.
Proof. unfold escape. now rewrite !replaceAll_append. Qed.

(** The eight passes amount to one character-wise substitution. *)
Lemma escape_substChars s : escape s = substChars escapeChar s.
Proof.
  induction s as [|c r IH]; [reflexivity|].
  change (String c r) with (String c EmptyString ++ r).
  rewrite escape_append, IH. reflexivity.
Qed.

Lemma escapeChar_cases c :
  escapeChar c = String c EmptyString \/ 4 <= String.length (escapeChar c).
Proof.
  destruct c as [[] [] [] [] [] [] [] []];
    first [left; reflexivity | right; vm_compute; lia].
Qed.

Lemma escapable_length c :
  escapable c = true -> 4 <= String.length (escapeChar c).
Proof.
  unfold escapable. intros E. apply negb_true_iff in E.
  destruct (escapeChar_cases c) as [K|K]; [|exact K].
  rewrite K, String.eqb_refl in E. discriminate.
Qed.

Lemma escapeChar_length c : 1 <= String.length (escapeChar c).
Proof.
  destruct (escapeChar_cases c) as [K|K]; [rewrite K; simpl|]; lia.
Qed.

Lemma escape_length s : String.length s <= String.length (escape s).
Proof.
  rewrite escape_substChars.
  induction s as [|c r IH]; simpl; [lia|].
  rewrite length_append. pose proof (escapeChar_length c). lia.
Qed.

Lemma escape_longer s :
  anyChar escapable s = true -> String.length s < String.length (escape s).
Proof.
  rewrite escape_substChars.
  induction s as [|c r IH]; simpl; [discriminate|].
  rewrite length_append. intros E. apply orb_true_iff in E as [E|E].
  - apply escapable_length in E.
    pose proof (escape_length r) as L. rewrite escape_substChars in L. lia.
  - specialize (IH E). pose proof (escapeChar_length c). lia.
Qed.

(** A string with an escapable character is changed by [escape]. *)
Lemma escape_changes s : anyChar escapable s = true -> escape s <> s.
Proof.
  intros E K. apply escape_longer in E. rewrite K in E. lia.
Qed.

Lemma allChars_append p a b :
  allChars p (a ++ b) = allChars p a && allChars p b.
Proof.
  induction a as [|x r IH]; simpl; [reflexivity|].
  now rewrite IH, andb_assoc.
Qed.

Lemma escapeChar_no_markup c :
  allChars (fun x => negb (markupChar x)) (escapeChar c) = true.
Proof. by_cases_on_char c. Qed.

(** No markup character survives [escape]. *)
Lemma escape_no_markup s :
  allChars (fun x => negb (markupChar x)) (escape s) = true.
Proof.
  rewrite escape_substChars.
  induction s as [|c r IH]; simpl; [reflexivity|].
  now rewrite allChars_append, escapeChar_no_markup, IH.
Qed.

Lemma escapeChar_startsClean c :
  isWhiteSpace c = false -> startsClean (escapeChar c ++ EmptyString) = true.
Proof. by_cases_on_char c. Qed.

Lemma startsClean_append a b :
  a <> EmptyString -> startsClean (a ++ b) = startsClean a.
Proof. destruct a; [congruence | reflexivity]. Qed.

Lemma escapeChar_nonempty c : escapeChar c <> EmptyString.
Proof.
  intros K. pose proof (escapeChar_length c) as L. rewrite K in L. simpl in L. lia.
Qed.

Lemma escape_startsClean s : startsClean s = true -> startsClean (escape s) = true.
Proof.
  rewrite escape_substChars. destruct s as [|c r]; [reflexivity|].
  simpl. intros W. apply negb_true_iff in W.
  rewrite startsClean_append by apply escapeChar_nonempty.
  rewrite <- (append_nil_r (escapeChar c)). now apply escapeChar_startsClean.
Qed.

Lemma endsClean_append a b :
  b <> EmptyString -> endsClean (a ++ b) = endsClean b.
Proof.
  intros Hb. induction a as [|x r IH]; [reflexivity|].
  simpl. destruct (r ++ b) eqn:E.
  - destruct r; [simpl in E; congruence | discriminate].
  - exact IH.
Qed.

Lemma escapeChar_endsClean c :
  isWhiteSpace c = false -> endsClean (escapeChar c) = true.
Proof. by_cases_on_char c. Qed.

Lemma substChars_nonempty c r : substChars escapeChar (String c r) <> EmptyString.
Proof.
  simpl. intros K. pose proof (escapeChar_length c) as L.
  apply (f_equal String.length) in K. rewrite length_append in K. simpl in K. lia.
Qed.

Lemma escape_endsClean s : endsClean s = true -> endsClean (escape s) = true.
Proof.
  rewrite escape_substChars.
  induction s as [|c r IH]; [reflexivity|].
  destruct r as [|d r'].
  - simpl. intros W. apply negb_true_iff in W.
    rewrite append_nil_r. now apply escapeChar_endsClean.
  - intros W. change (endsClean (String d r') = true) in W.
    change (substChars escapeChar (String c (String d r')))
      with (escapeChar c ++ substChars escapeChar (String d r')).
    rewrite endsClean_append by apply substChars_nonempty.
    exact (IH W).
Qed.

(** Escaping a trimmed string leaves it trimmed. *)
Lemma escape_trimmed s : trimmed s = true -> trimmed (escape s) = true.
Proof.
  unfold trimmed. intros E. apply andb_true_iff in E as [A B].
  now rewrite escape_startsClean, escape_endsClean.
Qed.

Lemma escapable_not_space c : escapable c = true -> isWhiteSpace c = false.
Proof. by_cases_on_char c. Qed.

Lemma anyChar_trimStart s :
  anyChar escapable (trimStart s) = anyChar escapable s.
Proof.
  induction s as [|c r IH]; simpl; [reflexivity|].
  destruct (isWhiteSpace c) eqn:W; [|reflexivity].
  rewrite IH. destruct (escapable c) eqn:E; [|reflexivity].
  apply escapable_not_space in E. congruence.
Qed.

Lemma anyChar_trimEnd s :
  anyChar escapable (trimEnd s) = anyChar escapable s.
Proof.
  induction s as [|c r IH]; simpl; [reflexivity|].
  rewrite <- IH. destruct (trimEnd r); simpl; [|reflexivity].
  destruct (isWhiteSpace c) eqn:W; simpl; [|reflexivity].
  destruct (escapable c) eqn:E; [|reflexivity].
  apply escapable_not_space in E. congruence.
Qed.

(** Trimming removes no escapable character. *)
Lemma anyChar_trim s : anyChar escapable (trim s) = anyChar escapable s.
Proof. unfold trim. now rewrite anyChar_trimEnd, anyChar_trimStart. Qed.

(** The characters [escape] rewrites are the ampersand and the markup
    characters. *)
Lemma escapable_spec c :
  escapable c = Ascii.eqb c "&" || markupChar c.
Proof. destruct c as [[] [] [] [] [] [] [] []]; reflexivity. Qed.

Lemma escape_nonempty s : s <> EmptyString -> escape s <> EmptyString.
Proof.
  rewrite escape_substChars. destruct s as [|c r]; [congruence|].
  intros _. apply substChars_nonempty.
Qed.

(** What [escape] writes for one character reads as escaped text: the
    character itself when it is no markup character and no ampersand, an
    entity otherwise. *)
Lemma escapeChar_escapedFrom c t :
  escapedFrom 0 (escapeChar c ++ t) = escapedFrom 0 t.
Proof. destruct c as [[] [] [] [] [] [] [] []]; reflexivity. Qed.

(** The result of [escape] is escaped text. *)
Lemma escape_escaped s : escaped (escape s) = true.
Proof.
  unfold escaped. rewrite escape_substChars.
  induction s as [|c r IH]; cbn [substChars]; [reflexivity|].
  now rewrite escapeChar_escapedFrom.
Qed.

End ValidatorFacts.

(** ** Buffers: hexadecimal and base64url renderings *)

Module BufferFacts.
Import Buffer JsStringFacts.

Lemma byteOfN_to_N b : byteOfN (Byte.to_N b) = b.
Proof. unfold byteOfN. now rewrite Byte.of_to_N. Qed.

Lemma fromHex_hexByte b r :
  fromHex (hexByte b ++ r) = option_map (cons b) (fromHex r).
Proof.
  destruct b; cbn [hexByte]; simpl; destruct (fromHex r); reflexivity.
Qed.

(** [toHex] can be read back. *)
Lemma fromHex_toHex buf : fromHex (toHex buf) = Some buf.
Proof.
  induction buf as [|b r IH]; [reflexivity|].
  cbn [toHex]. now rewrite fromHex_hexByte, IH.
Qed.

Lemma toHex_injective a b : toHex a = toHex b -> a = b.
Proof.
  intros E. apply (f_equal fromHex) in E.
  rewrite !fromHex_toHex in E. now injection E.
Qed.

Lemma toHex_length buf : String.length (toHex buf) = 2 * List.length buf.
Proof.
  induction buf as [|b r IH]; [reflexivity|].
  cbn [toHex]. rewrite length_append, IH. cbn [hexByte String.length List.length]. lia.
Qed.

Lemma from_to_string s : string_of_list_byte (from s) = s.
Proof. apply string_of_list_byte_of_string. Qed.

End BufferFacts.

Module Base64UrlFacts.
Import Buffer Base64Url JsString JsStringFacts BufferFacts.

Lemma value_digit n : (n < 64)%N -> value (digit n) = Some n.
Proof.
  intros L.
  destruct n as [|p]; [reflexivity|].
  do 6 (try destruct p as [p|p|]); try reflexivity; exfalso; lia.
Qed.

Lemma isDigit_digit n : (n < 64)%N -> isDigit (digit n) = true.
Proof. intros L. unfold isDigit. now rewrite value_digit. Qed.

(** The bounds of the bytes in the context. *)
Ltac group_bounds :=
  repeat match goal with
         | b : byte |- _ =>
             lazymatch goal with
             | _ : (Byte.to_N b <= 255)%N |- _ => fail
             | _ => pose proof (Byte.to_N_bounded b)
             end
         end.

(** Every character of an encoding is a base64url digit. *)
Lemma encode_digits buf : allChars isDigit (encode buf) = true.
Proof.
  assert (G : forall n (l : Buffer),
             List.length l <= n -> allChars isDigit (encode l) = true).
  { induction n as [|n IH]; intros l Hl.
    - destruct l; [reflexivity | simpl in Hl; lia].
    - destruct l as [|a [|b [|c r]]]; [reflexivity| | |].
      + group_bounds. cbn [encode allChars]. cbv zeta.
        rewrite !isDigit_digit; [reflexivity| |]; divlia.
      + group_bounds. cbn [encode allChars]. cbv zeta.
        rewrite !isDigit_digit; [reflexivity| | |]; divlia.
      + group_bounds. cbn [encode allChars]. cbv zeta.
        rewrite IH by (simpl in Hl; lia).
        rewrite !isDigit_digit; [reflexivity| | | |]; divlia. }
  apply (G (List.length buf)). lia.
Qed.

(** Decoding undoes encoding. *)
Lemma decode_encode buf : decode (encode buf) = Some buf.
Proof.
  assert (G : forall n (l : Buffer),
             List.length l <= n -> decode (encode l) = Some l).
  { induction n as [|n IH]; intros l Hl.
    - destruct l; [reflexivity | simpl in Hl; lia].
    - destruct l as [|a [|b [|c r]]]; [reflexivity| | |].
      + group_bounds. cbn [encode decode]. cbv zeta.
        rewrite !value_digit by divlia.
        replace (Byte.to_N a / 4 * 4 + Byte.to_N a mod 4 * 16 / 16)%N
          with (Byte.to_N a) by divlia.
        now rewrite byteOfN_to_N.
      + group_bounds. cbn [encode decode]. cbv zeta.
        rewrite !value_digit by divlia.
        set (g := (Byte.to_N a * 256 + Byte.to_N b)%N).
        replace (g / 1024 * 1024 + g / 16 mod 64 * 16 + g mod 16 * 4 / 4)%N
          with g by divlia.
        replace (g / 256)%N with (Byte.to_N a) by (subst g; divlia).
        replace (g mod 256)%N with (Byte.to_N b) by (subst g; divlia).
        now rewrite !byteOfN_to_N.
      + group_bounds. cbn [encode decode]. cbv zeta.
        rewrite !value_digit by divlia.
        rewrite IH by (simpl in Hl; lia).
        set (g := (Byte.to_N a * 65536 + Byte.to_N b * 256 + Byte.to_N c)%N).
        replace (g / 262144 * 262144 + g / 4096 mod 64 * 4096
                 + g / 64 mod 64 * 64 + g mod 64)%N with g by divlia.
        replace (g / 65536)%N with (Byte.to_N a) by (subst g; divlia).
        replace (g / 256 mod 256)%N with (Byte.to_N b) by (subst g; divlia).
        replace (g mod 256)%N with (Byte.to_N c) by (subst g; divlia).
        now rewrite !byteOfN_to_N. }
  apply (G (List.length buf)). lia.
Qed.

Lemma encode_injective a b : encode a = encode b -> a = b.
Proof.
  intros E. apply (f_equal decode) in E.
  rewrite !decode_encode in E. now injection E.
Qed.

End Base64UrlFacts.

(** ** ECMAScript dates *)

Module EcmaDateFacts.
Import EcmaDate.
Open Scope Z_scope.

Lemma DayFromYear_increasing y1 y2 :
  y1 < y2 -> DayFromYear y1 < DayFromYear y2.
Proof. unfold DayFromYear. intros L. divlia. Qed.

(** The length of a year: 365 days, 366 in a leap year. *)
Lemma DaysInYear y : DayFromYear (y + 1) - DayFromYear y = 365 + leapYear y.
Proof.
  unfold DayFromYear, leapYear.
  destruct (y mod 4 =? 0) eqn:A; destruct (y mod 100 =? 0) eqn:B;
    destruct (y mod 400 =? 0) eqn:C; cbn [negb];
    rewrite ?Z.eqb_eq, ?Z.eqb_neq in *; divlia.
Qed.

Lemma leapYear_range y : 0 <= leapYear y <= 1.
Proof.
  unfold leapYear.
  repeat match goal with
         | |- context [if ?b then _ else _] => destruct b
         end; lia.
Qed.

Lemma year_estimate_low d : DayFromYear (1970 + d * 400 / 146097 - 1) <= d.
Proof. unfold DayFromYear. divlia. Qed.

Lemma year_estimate_high d : d < DayFromYear (1970 + d * 400 / 146097 + 2).
Proof. unfold DayFromYear. divlia. Qed.

(** [YearFromTime t] is the year [t] falls in, *)
Lemma YearFromTime_spec t :
  DayFromYear (YearFromTime t) <= Day t < DayFromYear (YearFromTime t + 1).
Proof.
  unfold YearFromTime. cbv zeta.
  pose proof (year_estimate_low (Day t)) as L.
  pose proof (year_estimate_high (Day t)) as U.
  set (y := 1970 + Day t * 400 / 146097) in *.
  destruct (DayFromYear (y + 1) <=? Day t) eqn:A.
  - apply Z.leb_le in A. replace (y + 1 + 1) with (y + 2) by lia. lia.
  - apply Z.leb_gt in A. destruct (DayFromYear y <=? Day t) eqn:B.
    + apply Z.leb_le in B. lia.
    + apply Z.leb_gt in B. replace (y - 1 + 1) with y by lia. lia.
Qed.

(** that is, as ECMA-262 defines it, the largest year that starts no
    later than [t]. *)
Lemma YearFromTime_largest t y :
  DayFromYear y <= Day t -> y <= YearFromTime t.
Proof.
  intros L. pose proof (YearFromTime_spec t) as [_ U].
  destruct (Z_le_gt_dec y (YearFromTime t)) as [K|K]; [exact K|].
  assert (YearFromTime t + 1 <= y) as K' by lia.
  apply Zle_lt_or_eq in K'. destruct K' as [K'|K'].
  - pose proof (DayFromYear_increasing _ _ K'). lia.
  - rewrite K' in U. lia.
Qed.

Lemma DayWithinYear_range t :
  0 <= DayWithinYear t < 365 + InLeapYear t.
Proof.
  unfold DayWithinYear, InLeapYear.
  pose proof (YearFromTime_spec t). pose proof (DaysInYear (YearFromTime t)).
  lia.
Qed.

(** The day of the month is between 1 and 31. *)
Lemma DateFromTime_range t : 1 <= DateFromTime t <= 31.
Proof.
  unfold DateFromTime, MonthFromTime.
  pose proof (DayWithinYear_range t) as R.
  pose proof (leapYear_range (YearFromTime t)) as Lp. fold (InLeapYear t) in Lp.
  repeat match goal with
         | |- context [if ?b then _ else _] =>
             let E := fresh "E" in
             destruct b eqn:E;
             [apply Z.ltb_lt in E | apply Z.ltb_ge in E]
         end; cbn [daysBeforeMonth]; lia.
Qed.

Lemma MonthFromTime_range t : 0 <= MonthFromTime t <= 11.
Proof.
  unfold MonthFromTime.
  repeat match goal with
         | |- context [if ?b then _ else _] => destruct b
         end; lia.
Qed.

Lemma daysBeforeMonth_MonthFromTime t :
  daysBeforeMonth (MonthFromTime t) (InLeapYear t) + DateFromTime t - 1
  = DayWithinYear t.
Proof. unfold DateFromTime. lia. Qed.

(** Setting the day of the month to [DateFromTime t + k] moves [k] days
    on from the day of [t]. *)
Lemma MakeDay_shift t k :
  MakeDay (YearFromTime t) (MonthFromTime t) (DateFromTime t + k) = Day t + k.
Proof.
  unfold MakeDay.
  pose proof (MonthFromTime_range t) as R.
  rewrite (Z.div_small (MonthFromTime t) 12) by lia.
  rewrite (Z.mod_small (MonthFromTime t) 12) by lia.
  rewrite Z.add_0_r. fold (InLeapYear t).
  pose proof (daysBeforeMonth_MonthFromTime t) as D.
  unfold DayWithinYear in D. lia.
Qed.

Lemma MakeDate_shift t k :
  MakeDate (Day t + k) (TimeWithinDay t) = t + k * msPerDay.
Proof.
  unfold MakeDate, Day, TimeWithinDay.
  pose proof (Z.div_mod t msPerDay) as E.
  assert (msPerDay <> 0) as N by (unfold msPerDay; lia).
  specialize (E N). lia.
Qed.

Section LocalTime.
Variable LocalTZA : Z -> bool -> Z.

(** [d.setDate(d.getDate() + k)] keeps the local wall-clock time and
    moves [k] calendar days on. *)
Lemma setDate_getDate t k :
  setDate LocalTZA t (getDate LocalTZA t + k)
  = UTC LocalTZA (LocalTime LocalTZA t + k * msPerDay).
Proof.
  unfold setDate, getDate. cbv zeta.
  now rewrite MakeDay_shift, MakeDate_shift.
Qed.

(** In elapsed time: [k] days, corrected by the change of the zone
    offset between the two instants. *)
Lemma setDate_getDate_elapsed t k :
  setDate LocalTZA t (getDate LocalTZA t + k)
  = t + k * msPerDay
    + (LocalTZA t true
       - LocalTZA (t + LocalTZA t true + k * msPerDay) false).
Proof. rewrite setDate_getDate. unfold UTC, LocalTime. lia. Qed.
End LocalTime.

Lemma parseIntSeconds_week t :
  0 <= t -> parseIntSeconds (t + 7 * msPerDay) = parseIntSeconds t + 604800.
Proof.
  intros L. unfold parseIntSeconds, msPerDay.
  rewrite !Z.quot_div_nonneg by lia.
  replace (t + 7 * 86400000) with (t + 604800 * 1000) by lia.
  now rewrite Z.div_add by lia.
Qed.

Lemma parseIntSeconds_floor t : 0 <= t -> parseIntSeconds t = t / 1000.
Proof. intros L. unfold parseIntSeconds. now rewrite Z.quot_div_nonneg by lia. Qed.

End EcmaDateFacts.

(** ** Tokens *)

Module JwtFacts.
Import Model Buffer JsString JsStringFacts BufferFacts Base64UrlFacts Jwt.

Lemma isDigit_notDot c : Base64Url.isDigit c = true -> notDot c = true.
Proof. by_cases_on_char c. Qed.

Lemma allChars_weaken (p q : ascii -> bool) s :
  (forall c, p c = true -> q c = true) ->
  allChars p s = true -> allChars q s = true.
Proof.
  intros W. induction s as [|c r IH]; simpl; [reflexivity|].
  intros E. apply andb_true_iff in E as [A B].
  now rewrite (W _ A), IH.
Qed.

Lemma splitOn_nonempty sep s : splitOn sep s <> [].
Proof.
  destruct s as [|c r]; simpl; [discriminate|].
  destruct (Ascii.eqb c sep); [discriminate|].
  destruct (splitOn sep r); discriminate.
Qed.

Lemma splitOn_last a : allChars notDot a = true -> splitOn "." a = [a].
Proof.
  induction a as [|c r IH]; simpl; [reflexivity|].
  intros E. apply andb_true_iff in E as [A B].
  unfold notDot in A. apply negb_true_iff in A. rewrite A.
  now rewrite (IH B).
Qed.

Lemma splitOn_segment a r :
  allChars notDot a = true ->
  splitOn "." (a ++ "." ++ r) = a :: splitOn "." r.
Proof.
  induction a as [|c t IH]; intros E.
  - reflexivity.
  - simpl in E. apply andb_true_iff in E as [A B].
    unfold notDot in A. apply negb_true_iff in A.
    change ((String c t) ++ "." ++ r) with (String c (t ++ "." ++ r)).
    cbn [splitOn]. rewrite A. now rewrite (IH B).
Qed.

(** Three dot-free segments joined by dots split back into themselves. *)
Lemma splitOn_three a b c :
  allChars notDot a = true -> allChars notDot b = true ->
  allChars notDot c = true ->
  splitOn "." (a ++ "." ++ b ++ "." ++ c) = [a; b; c].
Proof.
  intros A B C.
  now rewrite (splitOn_segment _ _ A), (splitOn_segment _ _ B), (splitOn_last _ C).
Qed.

Lemma encode_notDot buf : allChars notDot (Base64Url.encode buf) = true.
Proof.
  apply (allChars_weaken Base64Url.isDigit); [apply isDigit_notDot|].
  apply encode_digits.
Qed.

Section WithPlatform.
Context {env : Platform}.

Lemma sign_segments c secret :
  sign c secret
  = headerSegment ++ "." ++ payloadSegment c ++ "." ++ signatureSegment c secret.
Proof.
  unfold sign, headerSegment, payloadSegment, signatureSegment. cbv zeta.
  now rewrite !append_assoc.
Qed.

Lemma splitOn_sign c secret :
  splitOn "." (sign c secret)
  = [headerSegment; payloadSegment c; signatureSegment c secret].
Proof.
  rewrite sign_segments. apply splitOn_three; apply encode_notDot.
Qed.

(** A token validates under the secret it was signed with, until it
    expires, provided the JSON codec reads its own rendering of the
    claims. *)
Lemma validate_sign c secret now :
  JSON_parse (JSON_stringify c) = Some c ->
  validate (sign c secret) secret now
  = if (now / 1000 <? claim_exp c)%Z then Some c else None.
Proof.
  intros J. unfold validate. rewrite splitOn_sign.
  fold headerSegment. rewrite String.eqb_refl.
  unfold signatureSegment at 1. rewrite String.eqb_refl. cbn [andb].
  unfold payloadSegment. rewrite decode_encode, from_to_string, J.
  reflexivity.
Qed.
End WithPlatform.

End JwtFacts.

(** ** Passwords *)

Module PasswordFacts.
Import Model Monad Buffer UserModel BufferFacts.

Section WithPlatform.
Context {env : Platform}.

Lemma setPassword_run u password w :
  setPassword u password w
  = (mkUser (_id u) (email u) (name u)
       (Some (toHex (derive password (toHex (saltBytes w)))))
       (Some (toHex (saltBytes w))),
     mkWorld (users w) (trips w)
       (mkEntropy (source (entropy w)) (cursor (entropy w) + 16))
       (oplog w)).
Proof. reflexivity. Qed.

(** [validPassword] compares the stored hash with the derivation of the
    candidate under the stored salt. *)
Lemma validPassword_stored u p s h :
  salt u = Some s -> hash u = Some h ->
  validPassword u p = Return (String.eqb h (toHex (derive p s))).
Proof. intros S Hh. unfold validPassword. now rewrite S, Hh. Qed.

(** C4: [setPassword] stores the hexadecimal rendering of 16 fresh random
    bytes (128 bits, 32 digits) as the salt, and as the hash the
    rendering of PBKDF2 over the plaintext and that salt with 100000
    iterations, a 64-byte key and SHA-512; it touches no other path of
    the document and nothing of the world but the position of the
    entropy source, which moves past the bytes it consumed. *)
Theorem setPassword_stores (u : User) (password : string) (w : World) :
  let u' := fst (setPassword u password w) in
  let w' := snd (setPassword u password w) in
  let bytes := map (source (entropy w)) (seq (cursor (entropy w)) 16) in
  List.length bytes = 16
  /\ salt u' = Some (toHex bytes)
  /\ String.length (toHex bytes) = 32
  /\ hash u'
     = Some (toHex (pbkdf2Sync password (toHex bytes) 100000 64 "sha512"))
  /\ _id u' = _id u /\ email u' = email u /\ name u' = name u
  /\ cursor (entropy w') = cursor (entropy w) + 16
  /\ source (entropy w') = source (entropy w)
  /\ users w' = users w /\ trips w' = trips w /\ oplog w' = oplog w.
Proof.
  cbv zeta. rewrite setPassword_run. cbn [fst snd].
  assert (L : List.length (saltBytes w) = 16).
  { unfold saltBytes. now rewrite length_map, length_seq. }
  fold (saltBytes w).
  split; [exact L|]. split; [reflexivity|].
  split; [now rewrite toHex_length, L|].
  split; [reflexivity|].
  repeat split.
Qed.

(** C1: after [setPassword password], [validPassword] accepts that
    password; it accepts a candidate exactly when PBKDF2 derives, under
    the stored salt and the same parameters, the key of the stored hash;
    so it rejects every candidate whose derived key differs. *)
Theorem validPassword_setPassword (u : User) (password other : string) (w : World) :
  let u' := fst (setPassword u password w) in
  let s := toHex (map (source (entropy w)) (seq (cursor (entropy w)) 16)) in
  validPassword u' password = Return true
  /\ (validPassword u' other = Return true
      <-> pbkdf2Sync other s 100000 64 "sha512"
          = pbkdf2Sync password s 100000 64 "sha512")
  /\ (pbkdf2Sync other s 100000 64 "sha512"
      <> pbkdf2Sync password s 100000 64 "sha512" ->
      validPassword u' other = Return false).
Proof.
  cbv zeta. rewrite setPassword_run. cbn [fst].
  fold (saltBytes w).
  set (s := toHex (saltBytes w)).
  assert (V : forall p,
             validPassword
               (mkUser (_id u) (email u) (name u)
                  (Some (toHex (derive password s))) (Some s)) p
             = Return (String.eqb (toHex (derive password s))
                         (toHex (derive p s)))).
  { intros p. now apply validPassword_stored. }
  rewrite !V. fold (derive other s) (derive password s).
  split; [now rewrite String.eqb_refl|]. split.
  - split.
    + intros E. injection E as E. apply String.eqb_eq in E.
      symmetry. now apply toHex_injective.
    + intros E. now rewrite E, String.eqb_refl.
  - intros N. f_equal. apply String.eqb_neq. intros E.
    apply toHex_injective in E. congruence.
Qed.
End WithPlatform.

End PasswordFacts.

(** ** The read handlers of the trips controller *)

Module TripsFacts.
Import Model Monad Trips.

Lemma Model_find_truthy f w : truthy (fst (Model_find f w)) = true.
Proof. reflexivity. Qed.

(** C9: [tripsList] and [tripsFindByCode] answer every request with status
    200 and the list of matching documents, the empty list included; the
    query result is always an array, hence truthy, so neither handler
    ever takes its 404 branch. *)
Theorem trips_handlers_always_200 (w : World) (tripCode : string) :
  tripsList w
  = (mkResponse 200 (JTrips (trips w)), logged (OpFindTrips None) w)
  /\ tripsFindByCode tripCode w
     = (mkResponse 200
          (JTrips (filter (fun t => String.eqb (code t) tripCode) (trips w))),
        logged (OpFindTrips (Some tripCode)) w)
  /\ (trips w = [] -> fst (tripsList w) = mkResponse 200 (JTrips []))
  /\ (filter (fun t => String.eqb (code t) tripCode) (trips w) = [] ->
      fst (tripsFindByCode tripCode w) = mkResponse 200 (JTrips []))
  /\ status (fst (tripsList w)) <> 404%Z
  /\ status (fst (tripsFindByCode tripCode w)) <> 404%Z
  /\ (forall f, truthy (fst (Model_find f w)) = true).
Proof.
  repeat split; try reflexivity; try discriminate.
  - intros E. cbn. now rewrite E.
  - intros E. cbn. now rewrite E.
Qed.

End TripsFacts.

(** ** Saving a user document *)

Module SaveFacts.
Import Model Monad JsString Validator UserModel JsStringFacts ValidatorFacts.

Lemma emailSetter_lowercased v : toLowerCase (emailSetter v) = emailSetter v.
Proof.
  unfold emailSetter. now rewrite toLowerCase_trim, toLowerCase_idempotent.
Qed.

Lemma emailSetter_trimmed v : trim (emailSetter v) = emailSetter v.
Proof. unfold emailSetter. apply trim_idempotent. Qed.

Lemma nameSetter_escape v :
  nameSetter (escape (trim v)) = escape (trim v).
Proof.
  unfold nameSetter. apply trim_fixed, escape_trimmed, trim_trimmed.
Qed.

Section WithPlatform.
Context {env : Platform}.

Lemma insertOne_run d w :
  insertOne d w
  = if existsb (fun x => sameId x d) (users w) then
      (Throw (DuplicateKeyError "_id"), logged (OpInsertUser d) w)
    else if existsb (fun x => sameEmail x d) (users w) then
      (Throw (DuplicateKeyError "email"), logged (OpInsertUser d) w)
    else (Return tt, inserted d w).
Proof.
  unfold insertOne, bind, logOp, getUsers, putUsers, ret. cbn.
  destruct (existsb (fun x => sameId x d) (users w)); [reflexivity|].
  destruct (existsb (fun x => sameEmail x d) (users w)); reflexivity.
Qed.

Lemma save_run u w :
  save u w
  = match validateSync u with
    | [] => insertOne (preSave u) w
    | errs => (Throw (ValidationError errs), w)
    end.
Proof. unfold save. now destruct (validateSync u). Qed.

(** [save] either appends the hooked document or leaves the collection
    as it was. *)
Lemma save_cases u w :
  (save u w = (Return tt, inserted (preSave u) w)
   /\ existsb (fun x => sameEmail x (preSave u)) (users w) = false)
  \/ (exists err w', save u w = (Throw err, w') /\ users w' = users w).
Proof.
  rewrite save_run. destruct (validateSync u) as [|e errs].
  - rewrite insertOne_run.
    destruct (existsb (fun x => sameId x (preSave u)) (users w)).
    + right. now eexists _, _.
    + destruct (existsb (fun x => sameEmail x (preSave u)) (users w)).
      * right. now eexists _, _.
      * left. now split.
  - right. now eexists _, _.
Qed.

Lemma validateSync_assigned u e n :
  email u = Some e -> name u = Some n ->
  validateSync u
  = ((match e with
      | EmptyString => ["Path `email` is required."]
      | _ => if isEmail e then [] else ["Please enter a valid email"]
      end)
     ++ (match n with
         | EmptyString => ["Path `name` is required."]
         | _ => if (String.length n <=? 50)%nat then []
                else ["Name must be less than 50 characters"]
         end))%list.
Proof.
  intros E N. unfold validateSync, validateEmail, validateName.
  rewrite E, N. now destruct e, n.
Qed.

Lemma validateSync_nil u e n :
  email u = Some e -> name u = Some n ->
  (validateSync u = []
   <-> e <> EmptyString /\ isEmail e = true
       /\ n <> EmptyString /\ String.length n <= 50).
Proof.
  intros E N. rewrite (validateSync_assigned u e n E N). split.
  - intros V. apply app_eq_nil in V as [VE VN].
    destruct e as [|c e']; [discriminate|].
    destruct n as [|c' n']; [discriminate|].
    destruct (isEmail (String c e')); [|discriminate].
    destruct (String.length (String c' n') <=? 50)%nat eqn:L; [|discriminate].
    apply Nat.leb_le in L. now repeat split.
  - intros (NE & IE & NN & L).
    destruct e as [|c e']; [congruence|].
    destruct n as [|c' n']; [congruence|].
    rewrite IE. apply Nat.leb_le in L. now rewrite L.
Qed.

(** The setter of [email] leaves no upper-case letter. *)
Lemma emailSetter_chars v : lowercased (emailSetter v) = true.
Proof. unfold emailSetter. apply allChars_trim, toLowerCase_lowercased. Qed.

Lemma preSave_email u e n :
  email u = Some e -> name u = Some n ->
  email (preSave u) = Some (emailSetter (normalizeEmail e)).
Proof. intros E N. unfold preSave. rewrite E. cbn. now rewrite N. Qed.

Lemma preSave_name u e n :
  email u = Some e -> name u = Some n ->
  name (preSave u) = Some (escape (trim n)).
Proof.
  intros E N. unfold preSave. rewrite E. cbn. rewrite N. cbn.
  now rewrite nameSetter_escape.
Qed.
End WithPlatform.

End SaveFacts.

(** ** The authentication controller *)

Module AuthenticationFacts.
Import Model Monad JsString Validator UserModel Authentication Router.
Import JsStringFacts ValidatorFacts SaveFacts PasswordFacts.

Section WithPlatform.
Context {env : Platform}.

Lemma register_missing req now w :
  missingFields (PostRegister req) = true ->
  register req now w = (allFieldsRequired, w).
Proof. cbn [missingFields]. intros M. unfold register. now rewrite M. Qed.

Lemma login_missing req now w :
  missingFields (PostLogin req) = true ->
  login req now w = (allFieldsRequired, w).
Proof. cbn [missingFields]. intros M. unfold login. now rewrite M. Qed.

(** [register] past the check of the fields. *)
Lemma register_run req now w :
  missingFields (PostRegister req) = false ->
  register req now w
  = let (user, w1) := buildUser req w in
    match save user w1 with
    | (Return _, w2) => (mkResponse 200 (JToken (generateJwt user now)), w2)
    | (Throw err, w2) => (mkResponse 400 (JError err), w2)
    end.
Proof.
  cbn [missingFields]. intros M. unfold register. rewrite M.
  unfold buildUser, bind.
  destruct (newUser w) as [u0 w0].
  destruct (setPassword _ _ w0) as [u1 w1].
  destruct (save u1 w1) as [[r|err] w2]; reflexivity.
Qed.

Lemma buildUser_run req w :
  exists oid h s e,
    buildUser req w
    = (mkUser oid
         (Some (emailSetter (fieldValue (body_email req))))
         (Some (nameSetter (fieldValue (body_name req))))
         (Some h) (Some s),
       mkWorld (users w) (trips w) e (oplog w)).
Proof.
  unfold buildUser, bind, newUser, bind, ret.
  destruct (randomBytes 12 w) as [oid w0] eqn:R.
  rewrite setPassword_run. cbn.
  unfold randomBytes in R. injection R as R1 R2. subst w0. cbn.
  now eexists _, _, _, _.
Qed.

(** What a registration does to the collection and what it answers. *)
Lemma register_cases req now w :
  missingFields (PostRegister req) = false ->
  let user := fst (buildUser req w) in
  (fst (register req now w) = mkResponse 200 (JToken (generateJwt user now))
   /\ users (snd (register req now w)) = (users w ++ [preSave user])%list
   /\ existsb (fun x => sameEmail x (preSave user)) (users w) = false)
  \/ (exists err,
        fst (register req now w) = mkResponse 400 (JError err)
        /\ users (snd (register req now w)) = users w).
Proof.
  intros M. cbv zeta. rewrite (register_run _ _ _ M).
  destruct (buildUser_run req w) as (oid & h & s & e & B).
  rewrite B. cbn [fst].
  match goal with |- context [save ?u ?w1] =>
    destruct (save_cases u w1) as [[S D]|(err & w' & S & U)]; rewrite S
  end.
  - left. cbn [fst snd inserted users] in *. now repeat split.
  - right. exists err. cbn [fst snd users] in *. now split.
Qed.

Lemma present_field f :
  truthyField f = true -> exists v, f = Some v /\ truthyString v = true.
Proof. destruct f as [v|]; [now exists v | discriminate]. Qed.

(** [login] past the check of the fields. *)
Lemma login_run req now w username password :
  body_email req = Some username -> body_password req = Some password ->
  truthyString username = true -> truthyString password = true ->
  login req now w
  = (match lookup (users w) username with
     | None => mkResponse 401 (JMessage "Incorrect username.")
     | Some user =>
         match validPassword user password with
         | Throw err => mkResponse 404 (JError err)
         | Return false => mkResponse 401 (JMessage "Incorrect password.")
         | Return true => mkResponse 200 (JToken (generateJwt user now))
         end
     end,
     logged (OpFindOneUser (emailSetter username)) w).
Proof.
  intros E P TE TP. unfold login. rewrite E, P. cbn [truthyField].
  rewrite TE, TP. cbn [negb orb].
  unfold Passport.authenticate. rewrite E, P, TE, TP. cbn [andb].
  unfold Passport.verify, findOne, bind, logOp, getUsers, ret, lookup. cbn.
  destruct (find _ (users w)) as [user|]; [|reflexivity].
  destruct (validPassword user password) as [[|]|err]; reflexivity.
Qed.

Lemma login_present req :
  missingFields (PostLogin req) = false ->
  exists username password,
    body_email req = Some username /\ body_password req = Some password
    /\ truthyString username = true /\ truthyString password = true.
Proof.
  cbn [missingFields]. intros M. apply orb_false_iff in M as [A B].
  apply negb_false_iff in A, B.
  destruct (present_field _ A) as (u & -> & TU).
  destruct (present_field _ B) as (p & -> & TP).
  now exists u, p.
Qed.

Lemma login_users req now w : users (snd (login req now w)) = users w.
Proof.
  destruct (missingFields (PostLogin req)) eqn:M.
  - now rewrite login_missing.
  - destruct (login_present _ M) as (u & p & E & P & TU & TP).
    now rewrite (login_run _ _ _ _ _ E P TU TP).
Qed.

(** What [register] does to the collection: nothing, or it appends the
    hooked form of a document that passed validation, so one with both
    paths assigned and a name, as set, that is not empty. *)
Lemma register_written req now w :
  users (snd (register req now w)) = users w
  \/ exists u e n,
       email u = Some e /\ name u = Some n
       /\ n <> EmptyString /\ trim n = n
       /\ users (snd (register req now w)) = (users w ++ [preSave u])%list.
Proof.
  destruct (missingFields (PostRegister req)) eqn:M.
  { left. now rewrite register_missing. }
  rewrite (register_run _ _ _ M).
  destruct (buildUser_run req w) as (oid & h & s & e & B). rewrite B.
  match goal with |- context [save ?u ?x] =>
    set (user := u); set (w1 := x)
  end.
  rewrite save_run. destruct (validateSync user) as [|m ms] eqn:V.
  - apply (validateSync_nil user _ _ eq_refl eq_refl) in V as (_ & _ & NN & _).
    rewrite insertOne_run.
    destruct (existsb (fun x => sameId x (preSave user)) (users w1));
      [now left|].
    destruct (existsb (fun x => sameEmail x (preSave user)) (users w1));
      [now left|].
    right. exists user. eexists _, _.
    split; [reflexivity|]. split; [reflexivity|].
    split; [exact NN|]. split; [apply trim_idempotent | reflexivity].
  - now left.
Qed.

(** The hook gives a validated document its persisted form: [escape]
    rewrites every markup character of the name and every ampersand, and
    the setters lower-case and trim what the normaliser returns. *)
Lemma preSave_canonical u e n :
  email u = Some e -> name u = Some n ->
  n <> EmptyString -> trim n = n ->
  canonical (preSave u).
Proof.
  intros E N NN T.
  exists (emailSetter (normalizeEmail e)), (escape n).
  split; [exact (preSave_email u e n E N)|].
  split; [rewrite (preSave_name u e n E N); now rewrite T|].
  split; [apply emailSetter_chars|].
  split; [apply trim_trimmed|].
  split; [split; [apply emailSetter_lowercased | apply emailSetter_trimmed]|].
  split; [now apply escape_nonempty|].
  split; [apply escape_trimmed; rewrite <- T; apply trim_trimmed|].
  split; [apply escape_no_markup | apply escape_escaped].
Qed.

Lemma handle_canonical r now w :
  Forall canonical (users w) ->
  Forall canonical (users (snd (handle r now w))).
Proof.
  intros I. destruct r as [body|body| |c]; cbn [handle].
  - now rewrite login_users.
  - destruct (register_written body now w)
      as [U|(u & e & n & E & N & NN & T & U)]; rewrite U.
    + exact I.
    + apply Forall_app. split; [exact I|].
      constructor; [exact (preSave_canonical u e n E N NN T) | constructor].
  - exact I.
  - exact I.
Qed.

(** C8: every document of the [users] collection has a lower-cased,
    trimmed [email] and a trimmed, HTML-escaped [name]: both paths are
    assigned, the [email] holds no upper-case letter and no white space at
    either end, the [name] is not empty, has no white space at either end,
    holds none of the markup characters, and every ampersand in it opens an
    entity.  Whatever requests are served, in whatever order, a collection
    whose documents have that form keeps it, the documents that
    registrations add included. *)
Theorem persisted_users_canonical (rs : list (Request * Z)) (w : World) :
  Forall canonical (users w) -> Forall canonical (users (serve rs w)).
Proof.
  revert w. induction rs as [|[r now] rest IH]; intros w I; cbn [serve].
  - exact I.
  - apply IH. now apply handle_canonical.
Qed.

(** C7: a registration lacking [name], [email] or [password], and a login
    lacking [email] or [password], is answered 400 with the message
    "All fields required", so without a token, and leaves the world as it
    was: no operation reaches the database. *)
Theorem missing_fields_rejected (r : Request) (now : Z) (w : World) :
  missingFields r = true ->
  handle r now w = (mkResponse 400 (JMessage "All fields required"), w)
  /\ tokenOf (json (fst (handle r now w))) = None
  /\ oplog (snd (handle r now w)) = oplog w
  /\ users (snd (handle r now w)) = users w.
Proof.
  intros M. destruct r as [body|body| |c]; try discriminate; cbn [handle].
  - rewrite (login_missing _ now w M). now repeat split.
  - rewrite (register_missing _ now w M). now repeat split.
Qed.

(** C3: a login carrying both fields whose [email] selects no stored
    document is rejected: status 401, the message "Incorrect username.",
    no token; the only database operation is the lookup. *)
Theorem login_unknown_email (req : Body) (now : Z) (w : World) (username : string) :
  missingFields (PostLogin req) = false ->
  body_email req = Some username ->
  lookup (users w) username = None ->
  login req now w
  = (mkResponse 401 (JMessage "Incorrect username."),
     logged (OpFindOneUser (emailSetter username)) w)
  /\ status (fst (login req now w)) <> 200%Z
  /\ tokenOf (json (fst (login req now w))) = None.
Proof.
  intros M E L.
  destruct (login_present _ M) as (u & p & E' & P & TU & TP).
  rewrite E in E'. injection E' as <-.
  rewrite (login_run _ _ _ _ _ E P TU TP), L. cbn.
  repeat split. discriminate.
Qed.

(** C6: a login whose [email] selects a stored document and whose
    password that document's [validPassword] refuses is answered 401,
    without a token. *)
Theorem login_wrong_password (req : Body) (now : Z) (w : World)
    (username password : string) (user : User) :
  missingFields (PostLogin req) = false ->
  body_email req = Some username ->
  body_password req = Some password ->
  lookup (users w) username = Some user ->
  validPassword user password = Return false ->
  status (fst (login req now w)) = 401%Z
  /\ json (fst (login req now w)) = JMessage "Incorrect password."
  /\ tokenOf (json (fst (login req now w))) = None.
Proof.
  intros M E P L V.
  destruct (login_present _ M) as (u & p & E' & P' & TU & TP).
  rewrite E in E'. injection E' as <-. rewrite P in P'. injection P' as <-.
  rewrite (login_run _ _ _ _ _ E P TU TP), L, V. cbn.
  now repeat split.
Qed.

Lemma existsb_sameEmail (us : list User) (d u : User) e :
  In d us -> email d = Some e -> email u = Some e ->
  existsb (fun x => sameEmail x u) us = true.
Proof.
  intros I D U. apply existsb_exists. exists d. split; [exact I|].
  unfold sameEmail, optEqb. rewrite D, U. apply String.eqb_refl.
Qed.

(** C5: a registration whose address, once normalised, is the [email]
    of a stored document is answered 400 with the error [save] was
    rejected with, hence without a token, and the collection is left as
    it was; in general [register] puts a token in its answer only when
    the answer is 200 and the document was written. *)
Theorem register_duplicate_email (req : Body) (now : Z) (w : World) (d : User) :
  missingFields (PostRegister req) = false ->
  In d (users w) ->
  email d = Some (persistedEmail (fieldValue (body_email req))) ->
  (exists err, fst (register req now w) = mkResponse 400 (JError err))
  /\ status (fst (register req now w)) = 400%Z
  /\ tokenOf (json (fst (register req now w))) = None
  /\ users (snd (register req now w)) = users w
  /\ (forall req' now' w' t,
        tokenOf (json (fst (register req' now' w'))) = Some t ->
        status (fst (register req' now' w')) = 200%Z
        /\ exists doc,
             users (snd (register req' now' w')) = (users w' ++ [doc])%list).
Proof.
  intros M I E.
  assert (R : exists err,
             fst (register req now w) = mkResponse 400 (JError err)
             /\ users (snd (register req now w)) = users w).
  { destruct (register_cases req now w M) as [(_ & _ & X)|R]; [|exact R].
    exfalso.
    destruct (buildUser_run req w) as (oid & h & sl & en & B).
    rewrite B in X. cbn [fst] in X.
    rewrite (existsb_sameEmail _ d _ _ I E) in X; [discriminate|].
    now apply (preSave_email _ _ (nameSetter (fieldValue (body_name req)))). }
  destruct R as (err & R & U).
  split; [now exists err|]. rewrite R. cbn.
  split; [reflexivity|]. split; [reflexivity|]. split; [exact U|].
  intros req' now' w' t T.
  destruct (missingFields (PostRegister req')) eqn:M'.
  - rewrite (register_missing _ now' w' M') in T. discriminate.
  - destruct (register_cases req' now' w' M') as [(F & U' & _)|(e' & F & _)].
    + rewrite F. split; [reflexivity|]. eexists. exact U'.
    + rewrite F in T. discriminate.
Qed.

(** C10: [register] signs the token before it saves, and the pre-save
    hook runs inside [save]; so the [name] and [email] claims of the
    token a successful registration returns are the values the paths had
    before the hook (the request's, as the schema setters left them),
    while the persisted document has the hooked ones: the [name] claim
    differs from the persisted [name] whenever the request's name holds
    an escapable character, and the [email] claim from the persisted
    [email] whenever the hook rewrites the address. *)
Theorem register_token_precedes_hook (req : Body) (now : Z) (w : World) (t : string) :
  fst (register req now w) = mkResponse 200 (JToken t) ->
  let rawName := fieldValue (body_name req) in
  let rawEmail := fieldValue (body_email req) in
  exists claims doc,
    t = Jwt.sign claims JWT_SECRET
    /\ users (snd (register req now w)) = (users w ++ [doc])%list
    /\ claim_name claims = Some (nameSetter rawName)
    /\ claim_email claims = Some (emailSetter rawEmail)
    /\ name doc = Some (escape (nameSetter rawName))
    /\ email doc = Some (persistedEmail rawEmail)
    /\ (anyChar escapable rawName = true -> claim_name claims <> name doc)
    /\ (persistedEmail rawEmail <> emailSetter rawEmail ->
        claim_email claims <> email doc)
    /\ (anyChar escapable rawName = true
        \/ persistedEmail rawEmail <> emailSetter rawEmail ->
        (claim_name claims, claim_email claims) <> (name doc, email doc)).
Proof.
  intros F. cbv zeta.
  destruct (missingFields (PostRegister req)) eqn:M.
  { rewrite (register_missing _ now w M) in F. discriminate. }
  destruct (register_cases req now w M) as [(F' & U & _)|(err & F' & _)];
    [|rewrite F' in F; discriminate].
  destruct (buildUser_run req w) as (oid & h & sl & en & B).
  rewrite B in U, F'. cbn [fst] in U, F'.
  set (user := mkUser oid (Some (emailSetter (fieldValue (body_email req))))
                 (Some (nameSetter (fieldValue (body_name req))))
                 (Some h) (Some sl)) in *.
  assert (T : t = generateJwt user now).
  { rewrite F' in F. clearbody user. now injection F. }
  subst t. clear F F'.
  assert (N : name (preSave user)
              = Some (escape (nameSetter (fieldValue (body_name req))))).
  { rewrite (preSave_name user _ _ eq_refl eq_refl).
    unfold nameSetter. now rewrite trim_idempotent. }
  assert (E : email (preSave user)
              = Some (persistedEmail (fieldValue (body_email req)))).
  { now rewrite (preSave_email user _ _ eq_refl eq_refl). }
  assert (DN : anyChar escapable (fieldValue (body_name req)) = true ->
               Some (nameSetter (fieldValue (body_name req)))
               <> name (preSave user)).
  { intros A K. rewrite N in K. injection K as K.
    symmetry in K. revert K. apply escape_changes.
    unfold nameSetter. now rewrite anyChar_trim. }
  assert (DE : persistedEmail (fieldValue (body_email req))
               <> emailSetter (fieldValue (body_email req)) ->
               Some (emailSetter (fieldValue (body_email req)))
               <> email (preSave user)).
  { intros A K. rewrite E in K. injection K as K. congruence. }
  exists (jwtPayload user now), (preSave user).
  split; [reflexivity|]. split; [exact U|].
  split; [reflexivity|]. split; [reflexivity|].
  split; [exact N|]. split; [exact E|].
  split; [exact DN|]. split; [exact DE|].
  intros [A|A] K.
  - exact (DN A (f_equal fst K)).
  - exact (DE A (f_equal snd K)).
Qed.
End WithPlatform.

End AuthenticationFacts.

(** ** [generateJwt] *)

Module GenerateJwtFacts.
Import Model Buffer JsString UserModel Jwt EcmaDate.
Import BufferFacts Base64UrlFacts EcmaDateFacts JwtFacts.
Open Scope Z_scope.

Section WithPlatform.
Context {env : Platform}.

Lemma expiryDate_elapsed now :
  expiryDate now = now + 7 * msPerDay + offsetDrift now.
Proof. unfold expiryDate. cbv zeta. apply setDate_getDate_elapsed. Qed.

Lemma expiryDate_local now :
  LocalTime LocalTZA now + 7 * msPerDay
  = expiryDate now
    + LocalTZA (LocalTime LocalTZA now + 7 * msPerDay) false.
Proof.
  unfold expiryDate. cbv zeta. rewrite setDate_getDate. unfold UTC. lia.
Qed.

Lemma offsetDrift_bound now :
  (forall t b, Z.abs (LocalTZA t b) <= msPerDay) ->
  Z.abs (offsetDrift now) <= 2 * msPerDay.
Proof.
  intros B. unfold offsetDrift.
  pose proof (B now true).
  pose proof (B (now + LocalTZA now true + 7 * msPerDay) false). lia.
Qed.

Lemma not_expired_at_issue now :
  0 <= now ->
  (forall t b, Z.abs (LocalTZA t b) <= msPerDay) ->
  now / 1000 < parseIntSeconds (expiryDate now).
Proof.
  intros L B. rewrite expiryDate_elapsed.
  pose proof (offsetDrift_bound now B) as D. unfold msPerDay in *.
  rewrite parseIntSeconds_floor by lia.
  apply Z.lt_le_trans with ((now + 1000) / 1000).
  - replace (now + 1000) with (now + 1 * 1000) by lia.
    rewrite Z.div_add by lia. lia.
  - apply Z.div_le_mono; lia.
Qed.

(** C2, amended: the token [generateJwt] mints is three base64url
    segments joined by dots: the HS256 header, the JSON rendering of the
    payload, and the HMAC-SHA-256 of the first two under [JWT_SECRET].
    The payload is [_id], [email], [name] of the document and [exp]; [exp]
    is, in whole seconds, the instant seven calendar days after issuance
    at the same local wall-clock time of the host, that is issuance plus
    604800 seconds corrected by the change of the host's zone offset,
    and exactly issuance plus 604800 seconds when the offset does not
    change.  Validated at once under the same secret, the token yields
    that payload, so the identity fields it was minted from. *)
Theorem generateJwt_token (u : User) (now : Z) :
  0 <= now ->
  (forall t b, Z.abs (LocalTZA t b) <= msPerDay) ->
  JSON_parse (JSON_stringify (jwtPayload u now)) = Some (jwtPayload u now) ->
  let claims := jwtPayload u now in
  let token := generateJwt u now in
  let sg := signatureSegment claims JWT_SECRET in
  token = (headerSegment ++ "." ++ payloadSegment claims ++ "." ++ sg)%string
  /\ splitOn "." token = [headerSegment; payloadSegment claims; sg]
  /\ allChars Base64Url.isDigit headerSegment = true
  /\ allChars Base64Url.isDigit (payloadSegment claims) = true
  /\ allChars Base64Url.isDigit sg = true
  /\ Base64Url.decode headerSegment = Some (from header)
  /\ Base64Url.decode (payloadSegment claims)
     = Some (from (JSON_stringify claims))
  /\ Base64Url.decode sg
     = Some (hmacSha256 (from JWT_SECRET)
               (from (headerSegment ++ "." ++ payloadSegment claims)%string))
  /\ claims = mkClaims (_id u) (email u) (name u) (claim_exp claims)
  /\ claim_exp claims = (now + 7 * msPerDay + offsetDrift now) / 1000
  /\ (offsetDrift now = 0 -> claim_exp claims = now / 1000 + 604800)
  /\ validate token JWT_SECRET now = Some claims.
Proof.
  intros L B J. cbv zeta.
  assert (X : claim_exp (jwtPayload u now)
              = (now + 7 * msPerDay + offsetDrift now) / 1000).
  { cbn [jwtPayload claim_exp]. unfold getTime.
    rewrite expiryDate_elapsed.
    pose proof (offsetDrift_bound now B) as D. unfold msPerDay in *.
    apply parseIntSeconds_floor. lia. }
  split; [apply sign_segments|].
  split; [apply splitOn_sign|].
  split; [apply encode_digits|].
  split; [apply encode_digits|].
  split; [apply encode_digits|].
  split; [apply decode_encode|].
  split; [apply decode_encode|].
  split; [apply decode_encode|].
  split; [unfold jwtPayload; cbn [claim_exp]; reflexivity|].
  split; [exact X|].
  split.
  - intros Z0. rewrite X, Z0, Z.add_0_r.
    rewrite <- (parseIntSeconds_floor now L).
    rewrite <- parseIntSeconds_week by exact L.
    unfold msPerDay. symmetry. apply parseIntSeconds_floor. lia.
  - unfold generateJwt. rewrite (validate_sign _ _ _ J).
    pose proof (not_expired_at_issue now L B) as E.
    apply Z.ltb_lt in E. cbn [jwtPayload claim_exp]. unfold getTime.
    now rewrite E.
Qed.
End WithPlatform.

(** C2, as first stated, fails on a host whose zone offset changes within
    the week: on US Eastern time, a token minted on 5 March 2024 at 12:00
    UTC validates to claims whose [exp] is an hour short of issuance plus
    seven days. *)
Lemma generateJwt_exp_not_604800 :
  let claims := jwtPayload (env := Demo.eastern) Demo.bob Demo.noon in
  validate (env := Demo.eastern)
    (generateJwt (env := Demo.eastern) Demo.bob Demo.noon)
    (JWT_SECRET (Platform := Demo.eastern)) Demo.noon
  = Some claims
  /\ claim_exp claims = 1710241200
  /\ Z.quot Demo.noon 1000 + 7 * 86400 = 1710244800
  /\ claim_exp claims <> Z.quot Demo.noon 1000 + 7 * 86400.
Proof.
  cbv zeta. split; [vm_compute; reflexivity|].
  split; [vm_compute; reflexivity|].
  split; [vm_compute; reflexivity|].
  vm_compute. discriminate.
Qed.

End GenerateJwtFacts.

(** ** The theorems at work on the concrete platform *)

Module Examples.
Import Model Monad JsString Validator UserModel Authentication Router Demo.
Import PasswordFacts AuthenticationFacts GenerateJwtFacts.

#[local] Existing Instance platform.

Lemma validPassword_setPassword_example :
  let u' := fst (setPassword (env := platform) bob "correct horse" world0) in
  validPassword (env := platform) u' "correct horse" = Return true
  /\ validPassword (env := platform) u' "horse correct" = Return false.
Proof.
  destruct (validPassword_setPassword (env := platform)
              bob "correct horse" "horse correct" world0) as (A & _ & C).
  split; [exact A|]. apply C. vm_compute. discriminate.
Defined.

Lemma generateJwt_token_example :
  (0 <= noon)%Z
  /\ Jwt.validate (env := platform)
       (generateJwt (env := platform) bob noon) "demo-secret" noon
     = Some (mkClaims (_id bob) (email bob) (name bob) 1710244800).
Proof.
  assert (L : (0 <= noon)%Z) by (apply Z.leb_le; reflexivity).
  split; [exact L|].
  assert (B : forall (t : Z) (b : bool),
             (Z.abs (LocalTZA (Platform := platform) t b) <= EcmaDate.msPerDay)%Z).
  { intros t b. apply Z.leb_le. reflexivity. }
  assert (J : JSON_parse (Platform := platform)
                (JSON_stringify (jwtPayload (env := platform) bob noon))
              = Some (jwtPayload (env := platform) bob noon))
    by (vm_compute; reflexivity).
  destruct (generateJwt_token (env := platform) bob noon L B J)
    as (_ & _ & _ & _ & _ & _ & _ & _ & _ & _ & _ & V).
  exact V.
Defined.

Lemma login_unknown_email_example :
  fst (login (env := platform) nobody noon world1)
  = mkResponse 401 (JMessage "Incorrect username.").
Proof.
  destruct (login_unknown_email (env := platform) nobody noon world1
              "nobody@example.com" eq_refl eq_refl eq_refl) as (A & _).
  now rewrite A.
Defined.

Lemma register_duplicate_email_example :
  status (fst (register (env := platform) carolAgain noon world1)) = 400%Z
  /\ tokenOf (json (fst (register (env := platform) carolAgain noon world1)))
     = None
  /\ users (snd (register (env := platform) carolAgain noon world1)) = [carol].
Proof.
  destruct (register_duplicate_email (env := platform) carolAgain noon world1
              carol eq_refl (or_introl eq_refl) eq_refl)
    as (_ & A & B & C & _).
  split; [exact A|]. split; [exact B|exact C].
Defined.

Lemma login_wrong_password_example :
  status (fst (login (env := platform) carolWrong noon world1)) = 401%Z
  /\ tokenOf (json (fst (login (env := platform) carolWrong noon world1)))
     = None.
Proof.
  destruct (login_wrong_password (env := platform) carolWrong noon world1
              "Carol@Gmail.com" "coffee" carol
              eq_refl eq_refl eq_refl eq_refl eq_refl) as (A & _ & C).
  split; [exact A|exact C].
Defined.

Lemma missing_fields_rejected_example :
  handle (env := platform) (PostLogin noPassword) noon world1
  = (mkResponse 400 (JMessage "All fields required"), world1).
Proof.
  destruct (missing_fields_rejected (env := platform)
              (PostLogin noPassword) noon world1 eq_refl) as (A & _).
  exact A.
Defined.

Lemma persisted_users_canonical_example :
  Forall canonical
    (users (serve (env := platform)
              [(PostRegister alice, noon); (PostLogin carolWrong, noon);
               (PostRegister carolAgain, noon)]
              world1)).
Proof.
  apply (persisted_users_canonical (env := platform)).
  constructor; [|constructor].
  exists "carol@gmail.com", "Carol".
  repeat split; try reflexivity. discriminate.
Defined.

Lemma register_token_precedes_hook_example :
  exists t claims doc,
    fst (register (env := platform) alice noon world0)
    = mkResponse 200 (JToken t)
    /\ t = Jwt.sign (env := platform) claims "demo-secret"
    /\ claim_name claims = Some "Alice <A&B>"
    /\ name doc = Some "Alice &lt;A&amp;B&gt;"
    /\ claim_email claims = Some "alice+travel@gmail.com"
    /\ email doc = Some "alice@gmail.com"
    /\ users (snd (register (env := platform) alice noon world0)) = [doc].
Proof.
  assert (F : fst (register (env := platform) alice noon world0)
              = mkResponse 200
                  (JToken (generateJwt (env := platform)
                             (fst (buildUser (env := platform) alice world0))
                             noon)))
    by (vm_compute; reflexivity).
  destruct (register_token_precedes_hook (env := platform) alice noon world0 _ F)
    as (claims & doc & T & U & CN & CE & DN & DE & _).
  exists (generateJwt (env := platform)
            (fst (buildUser (env := platform) alice world0)) noon), claims, doc.
  split; [exact F|]. split; [exact T|].
  split; [exact CN|]. split; [exact DN|].
  split; [exact CE|]. split; [exact DE|exact U].
Defined.

End Examples.

(** ** More on registration and login *)

Module SessionFacts.
Import Model Monad Buffer JsString Validator UserModel Authentication Router.
Import StoreProps.
Import JsStringFacts ValidatorFacts BufferFacts SaveFacts PasswordFacts.
Import AuthenticationFacts.

Section WithPlatform.
Context {env : Platform}.

Lemma preSave_credentials u :
  _id (preSave u) = _id u /\ hash (preSave u) = hash u
  /\ salt (preSave u) = salt u.
Proof. destruct u as [i [e|] [n|] h s]; now repeat split. Qed.

(** The document [register] builds: the two paths as their setters leave
    the request's values, and the credentials of the request's password
    under a salt of 32 digits. *)
Lemma buildUser_document req w :
  let u := fst (buildUser req w) in
  email u = Some (emailSetter (fieldValue (body_email req)))
  /\ name u = Some (nameSetter (fieldValue (body_name req)))
  /\ (exists s,
        salt u = Some s /\ String.length s = 32
        /\ hash u = Some (toHex (derive (fieldValue (body_password req)) s)))
  /\ users (snd (buildUser req w)) = users w
  /\ trips (snd (buildUser req w)) = trips w
  /\ oplog (snd (buildUser req w)) = oplog w.
Proof.
  cbv zeta. unfold buildUser, bind, newUser, bind, ret.
  destruct (randomBytes 12 w) as [oid w0] eqn:R.
  rewrite setPassword_run. cbn [fst snd email name salt hash users trips oplog].
  unfold randomBytes in R. injection R as R1 R2. subst w0.
  cbn [users trips oplog].
  split; [reflexivity|]. split; [reflexivity|].
  split; [|now repeat split].
  eexists. split; [reflexivity|]. split; [|reflexivity].
  rewrite toHex_length. unfold saltBytes. now rewrite length_map, length_seq.
Qed.

Lemma buildUser_validPassword req w :
  validPassword (fst (buildUser req w)) (fieldValue (body_password req))
  = Return true.
Proof.
  destruct (buildUser_document req w) as (_ & _ & (s & S & _ & Hh) & _).
  rewrite (validPassword_stored _ _ _ _ S Hh). now rewrite String.eqb_refl.
Qed.

Lemma validPassword_preSave u p :
  validPassword (preSave u) p = validPassword u p.
Proof.
  destruct (preSave_credentials u) as (_ & Hh & S).
  unfold validPassword. now rewrite Hh, S.
Qed.

Lemma find_app_last {A} (f : A -> bool) (l : list A) (d : A) :
  existsb f l = false ->
  find f (l ++ [d]) = if f d then Some d else None.
Proof.
  induction l as [|x r IH]; cbn; [reflexivity|].
  intros E. apply orb_false_iff in E as [X R]. rewrite X. now apply IH.
Qed.

Lemma lookup_existsb us address :
  existsb (fun d => optEqb (email d) (Some (emailSetter address))) us = false ->
  lookup us address = None.
Proof.
  unfold lookup. induction us as [|x r IH]; cbn; [reflexivity|].
  intros E. apply orb_false_iff in E as [X R]. rewrite X. now apply IH.
Qed.

Lemma login_accepts (req : Body) (now : Z) (w : World)
    (username password : string) (user : User) :
  missingFields (PostLogin req) = false ->
  body_email req = Some username ->
  body_password req = Some password ->
  lookup (users w) username = Some user ->
  validPassword user password = Return true ->
  login req now w
  = (mkResponse 200 (JToken (generateJwt user now)),
     logged (OpFindOneUser (emailSetter username)) w).
Proof.
  intros M E P L V.
  destruct (login_present _ M) as (u & p & E' & P' & TU & TP).
  rewrite E in E'. injection E' as <-. rewrite P in P'. injection P' as <-.
  now rewrite (login_run _ _ _ _ _ E P TU TP), L, V.
Qed.

(** X1: a login whose address selects a stored document and whose password
    that document's [validPassword] accepts is answered 200 with the token
    [generateJwt] mints for that document; the lookup is the only
    operation sent to the database. *)
Theorem login_valid_credentials (req : Body) (now : Z) (w : World)
    (username password : string) (user : User) :
  missingFields (PostLogin req) = false ->
  body_email req = Some username ->
  body_password req = Some password ->
  lookup (users w) username = Some user ->
  validPassword user password = Return true ->
  login req now w
  = (mkResponse 200 (JToken (generateJwt user now)),
     logged (OpFindOneUser (emailSetter username)) w)
  /\ tokenOf (json (fst (login req now w))) = Some (generateJwt user now)
  /\ users (snd (login req now w)) = users w.
Proof.
  intros M E P L V. rewrite (login_accepts _ _ _ _ _ _ M E P L V).
  now repeat split.
Qed.

(** X2: a login that carries both fields and whose address selects a
    stored document without salt is answered 404 with the [TypeError]
    that [pbkdf2Sync] throws and the strategy hands to the callback; no
    token is issued, and the lookup is the only operation sent to the
    database. *)
Theorem login_user_without_salt (req : Body) (now : Z) (w : World)
    (username : string) (user : User) :
  missingFields (PostLogin req) = false ->
  body_email req = Some username ->
  lookup (users w) username = Some user ->
  salt user = None ->
  (exists message,
     fst (login req now w) = mkResponse 404 (JError (TypeError message)))
  /\ tokenOf (json (fst (login req now w))) = None
  /\ snd (login req now w) = logged (OpFindOneUser (emailSetter username)) w.
Proof.
  intros M E L S.
  destruct (login_present _ M) as (u & p & E' & P & TU & TP).
  rewrite E in E'. injection E' as <-.
  rewrite (login_run _ _ _ _ _ E P TU TP), L.
  unfold validPassword. rewrite S. cbn [fst snd json tokenOf].
  split; [now eexists | now split].
Qed.

(** X3: once a registration has succeeded, a login with the same password
    and any non-empty address the schema setter maps to the persisted
    [email] is answered 200 with the token of the persisted document. *)
Theorem register_then_login (req : Body) (now : Z) (w : World) (t : string)
    (attempt : Body) (later : Z) (address : string) :
  fst (register req now w) = mkResponse 200 (JToken t) ->
  body_email attempt = Some address ->
  address <> EmptyString ->
  emailSetter address = persistedEmail (fieldValue (body_email req)) ->
  body_password attempt = body_password req ->
  exists doc,
    users (snd (register req now w)) = (users w ++ [doc])%list
    /\ email doc = Some (persistedEmail (fieldValue (body_email req)))
    /\ fst (login attempt later (snd (register req now w)))
       = mkResponse 200 (JToken (generateJwt doc later)).
Proof.
  intros F A NE S P.
  destruct (missingFields (PostRegister req)) eqn:M.
  { rewrite (register_missing _ now w M) in F. discriminate. }
  destruct (register_cases req now w M) as [(_ & U & X)|(err & F' & _)];
    [|rewrite F' in F; discriminate].
  set (user := fst (buildUser req w)) in *.
  destruct (buildUser_document req w) as (E & N & _). fold user in E, N.
  pose proof (preSave_email user _ _ E N) as PE.
  fold (persistedEmail (fieldValue (body_email req))) in PE.
  exists (preSave user). split; [exact U|]. split; [exact PE|].
  cbn [missingFields] in M. apply orb_false_iff in M as [M MP].
  apply orb_false_iff in M as [_ ME].
  apply negb_false_iff in MP, ME.
  destruct (present_field _ MP) as (p & BP & TP).
  assert (TA : truthyString address = true)
    by (destruct address; [congruence | reflexivity]).
  rewrite BP in P.
  assert (ML : missingFields (PostLogin attempt) = false).
  { cbn [missingFields]. rewrite A, P. cbn [truthyField]. now rewrite TA, TP. }
  assert (L : lookup (users (snd (register req now w))) address
              = Some (preSave user)).
  { rewrite U. unfold lookup. rewrite find_app_last.
    - rewrite S, PE. cbn [optEqb]. now rewrite String.eqb_refl.
    - rewrite S, <- PE. exact X. }
  rewrite (login_accepts attempt later _ address p (preSave user)
             ML A P L).
  - reflexivity.
  - rewrite validPassword_preSave. unfold user.
    pose proof (buildUser_validPassword req w) as V.
    rewrite BP in V. exact V.
Qed.
(** X4: when the pre-save hook rewrote the address, a login with the
    address as it was registered is answered 401 "Incorrect username.",
    unless some stored document has that address as its [email]. *)
Theorem login_with_rewritten_address (req : Body) (now : Z) (w : World)
    (t : string) (attempt : Body) (later : Z) :
  fst (register req now w) = mkResponse 200 (JToken t) ->
  persistedEmail (fieldValue (body_email req))
  <> emailSetter (fieldValue (body_email req)) ->
  (forall d, In d (users w) ->
             email d <> Some (emailSetter (fieldValue (body_email req)))) ->
  body_email attempt = body_email req ->
  truthyField (body_password attempt) = true ->
  fst (login attempt later (snd (register req now w)))
  = mkResponse 401 (JMessage "Incorrect username.").
Proof.
  intros F R Fresh A TP.
  destruct (missingFields (PostRegister req)) eqn:M.
  { rewrite (register_missing _ now w M) in F. discriminate. }
  destruct (register_cases req now w M) as [(_ & U & _)|(err & F' & _)];
    [|rewrite F' in F; discriminate].
  set (user := fst (buildUser req w)) in *.
  destruct (buildUser_document req w) as (E & N & _). fold user in E, N.
  pose proof (preSave_email user _ _ E N) as PE.
  fold (persistedEmail (fieldValue (body_email req))) in PE.
  cbn [missingFields] in M. apply orb_false_iff in M as [M _].
  apply orb_false_iff in M as [_ ME]. apply negb_false_iff in ME.
  destruct (present_field _ ME) as (raw & BE & TE).
  destruct (present_field _ TP) as (p & BP & TP').
  rewrite BE in A. rewrite BE in R, Fresh, PE. cbn [fieldValue] in R, Fresh, PE.
  rewrite (login_run _ _ _ _ _ A BP TE TP'). cbn [fst].
  replace (lookup (users (snd (register req now w))) raw) with (@None User);
    [reflexivity|].
  symmetry. rewrite U. unfold lookup. rewrite find_app_last.
  - rewrite PE. cbn [optEqb].
    destruct (String.eqb_spec (persistedEmail raw) (emailSetter raw));
      [contradiction | reflexivity].
  - apply not_true_is_false. intros X. apply existsb_exists in X as (d & I & X).
    apply (Fresh d I). destruct (email d) as [e|]; [|discriminate].
    cbn [optEqb] in X. apply String.eqb_eq in X. now subst.
Qed.

Lemma optEqb_eq a b : optEqb a b = true <-> a = b.
Proof.
  destruct a as [x|], b as [y|]; cbn; try (split; congruence).
  rewrite String.eqb_eq. split; congruence.
Qed.

Lemma existsb_key {K} (key : User -> K) (eqb : K -> K -> bool) us d :
  (forall a b, eqb a b = true <-> a = b) ->
  existsb (fun x => eqb (key x) (key d)) us = false ->
  ~ In (key d) (map key us).
Proof.
  intros Spec X I. apply in_map_iff in I as (x & E & I).
  assert (existsb (fun x => eqb (key x) (key d)) us = true) as Y.
  { apply existsb_exists. exists x. split; [exact I|]. now apply Spec. }
  congruence.
Qed.

Lemma NoDup_map_snoc {K} (key : User -> K) us d :
  NoDup (map key us) -> ~ In (key d) (map key us) ->
  NoDup (map key (us ++ [d])).
Proof.
  intros N I. rewrite map_app. cbn [map].
  apply NoDup_app; [exact N | repeat constructor; intros [] | ].
  intros a Ia [<-|[]]. contradiction.
Qed.

(** What [register] does to the collection: nothing, or it appends the
    hooked document, whose two keys no stored document has. *)
Lemma register_appends req now w :
  users (snd (register req now w)) = users w
  \/ exists d,
       users (snd (register req now w)) = (users w ++ [d])%list
       /\ existsb (fun x => sameId x d) (users w) = false
       /\ existsb (fun x => sameEmail x d) (users w) = false.
Proof.
  destruct (missingFields (PostRegister req)) eqn:M.
  { left. now rewrite register_missing. }
  rewrite (register_run _ _ _ M).
  destruct (buildUser req w) as [user w1] eqn:B.
  assert (U1 : users w1 = users w).
  { destruct (buildUser_document req w) as (_ & _ & _ & U & _).
    now rewrite B in U. }
  rewrite save_run. destruct (validateSync user) as [|e errs].
  - rewrite insertOne_run. rewrite U1.
    destruct (existsb (fun x => sameId x (preSave user)) (users w)) eqn:I.
    + left. exact U1.
    + destruct (existsb (fun x => sameEmail x (preSave user)) (users w)) eqn:E.
      * left. exact U1.
      * right. exists (preSave user). cbn [snd inserted users].
        rewrite U1. now repeat split.
  - left. exact U1.
Qed.

Lemma handle_uniqueKeys r now w :
  uniqueKeys (users w) -> uniqueKeys (users (snd (handle r now w))).
Proof.
  intros [NI NE]. destruct r as [body|body| |c]; cbn [handle].
  - rewrite login_users. now split.
  - destruct (register_appends body now w) as [U|(d & U & I & E)]; rewrite U.
    + now split.
    + split; apply NoDup_map_snoc; try assumption.
      * apply (existsb_key _id String.eqb); [apply String.eqb_eq | exact I].
      * apply (existsb_key email optEqb); [apply optEqb_eq | exact E].
  - now split.
  - now split.
Qed.

(** X5: no two documents of the [users] collection share an [_id] or an
    [email]: a collection whose keys are pairwise distinct stays so
    whatever requests are served. *)
Theorem users_keys_stay_unique (rs : list (Request * Z)) (w : World) :
  uniqueKeys (users w) -> uniqueKeys (users (serve rs w)).
Proof.
  revert w. induction rs as [|[r now] rest IH]; intros w I; cbn [serve].
  - exact I.
  - apply IH. now apply handle_uniqueKeys.
Qed.

Lemma lookup_found (us : list User) (address : string) (d : User) :
  NoDup (map email us) ->
  In d us -> email d = Some (emailSetter address) ->
  lookup us address = Some d.
Proof.
  intros N I E. unfold lookup. induction us as [|x r IH]; [destruct I|].
  cbn [find]. cbn [map] in N. apply NoDup_cons_iff in N as [NX NR].
  destruct (optEqb (email x) (Some (emailSetter address))) eqn:X.
  - apply optEqb_eq in X. destruct I as [->|I]; [reflexivity|].
    exfalso. apply NX. rewrite X, <- E. now apply in_map.
  - destruct I as [->|I].
    + rewrite E in X. cbn [optEqb] in X. now rewrite String.eqb_refl in X.
    + now apply IH.
Qed.

(** [register] past the check of the fields, when validation fails. *)
Lemma register_invalid_run req now w :
  missingFields (PostRegister req) = false ->
  validateSync (fst (buildUser req w)) <> [] ->
  register req now w
  = (mkResponse 400
       (JError (ValidationError (validateSync (fst (buildUser req w))))),
     snd (buildUser req w)).
Proof.
  intros M V. rewrite (register_run _ _ _ M).
  destruct (buildUser req w) as [user w1]. cbn [fst snd] in *.
  rewrite save_run. destruct (validateSync user); [congruence | reflexivity].
Qed.

(** X7: a registration that carries the three fields but whose address,
    trimmed and lower-cased, is not an e-mail address, or whose name,
    trimmed, is empty or longer than 50 characters, is answered 400 with a
    validation error naming the fault; no operation is sent to the
    database and the collection is left as it was. *)
Theorem register_invalid_input (req : Body) (now : Z) (w : World) :
  let e := emailSetter (fieldValue (body_email req)) in
  let n := nameSetter (fieldValue (body_name req)) in
  missingFields (PostRegister req) = false ->
  e = EmptyString \/ isEmail e = false \/ n = EmptyString
  \/ 50 < String.length n ->
  exists messages,
    fst (register req now w)
    = mkResponse 400 (JError (ValidationError messages))
    /\ (e = EmptyString -> In "Path `email` is required." messages)
    /\ (e <> EmptyString -> isEmail e = false ->
        In "Please enter a valid email" messages)
    /\ (n = EmptyString -> In "Path `name` is required." messages)
    /\ (50 < String.length n ->
        In "Name must be less than 50 characters" messages)
    /\ users (snd (register req now w)) = users w
    /\ oplog (snd (register req now w)) = oplog w.
Proof.
  cbv zeta. intros M Bad.
  destruct (buildUser_document req w) as (E & N & _ & U & _ & O).
  set (user := fst (buildUser req w)) in *.
  set (e := emailSetter (fieldValue (body_email req))) in *.
  set (n := nameSetter (fieldValue (body_name req))) in *.
  assert (V : validateSync user <> []).
  { intros V. apply (validateSync_nil user e n E N) in V
      as (NE & IE & NN & L).
    destruct Bad as [B|[B|[B|B]]]; try congruence. lia. }
  exists (validateSync user).
  rewrite (register_invalid_run _ _ _ M V). cbn [fst snd].
  split; [reflexivity|].
  rewrite (validateSync_assigned user e n E N).
  split; [intros ->; apply in_or_app; left; now left|].
  split.
  { intros NE IE. apply in_or_app. left.
    destruct e; [congruence|]. rewrite IE. now left. }
  split; [intros ->; apply in_or_app; right; now left|].
  split.
  { intros L. apply in_or_app. right.
    destruct n as [|c n']; [simpl in L; lia|].
    destruct (String.length (String c n') <=? 50)%nat eqn:K;
      [apply Nat.leb_le in K; lia | now left]. }
  now split.
Qed.

(** X8: [register] answers 200 only if the three fields are present, the
    address as set is a non-empty e-mail address, the name as set is
    non-empty and of at most 50 characters, and no stored document has the
    [_id] or the [email] of the document to be written; the answer then
    carries the token of the document as it was before the hook, the
    hooked document has been appended, and its insertion is the only
    operation sent to the database. *)
Theorem register_succeeds_only_if (req : Body) (now : Z) (w : World) :
  let e := emailSetter (fieldValue (body_email req)) in
  let n := nameSetter (fieldValue (body_name req)) in
  let user := fst (buildUser req w) in
  status (fst (register req now w)) = 200%Z ->
  (missingFields (PostRegister req) = false
   /\ e <> EmptyString /\ isEmail e = true
   /\ n <> EmptyString /\ String.length n <= 50
   /\ existsb (fun d => sameId d (preSave user)) (users w) = false
   /\ existsb (fun d => sameEmail d (preSave user)) (users w) = false)
  /\ fst (register req now w)
     = mkResponse 200 (JToken (generateJwt user now))
  /\ users (snd (register req now w)) = (users w ++ [preSave user])%list
  /\ oplog (snd (register req now w))
     = OpInsertUser (preSave user) :: oplog w.
Proof.
  cbv zeta.
  destruct (missingFields (PostRegister req)) eqn:M.
  { rewrite (register_missing _ now w M). cbn. discriminate. }
  destruct (buildUser_document req w) as (E & N & _ & U & _ & O).
  pose proof (validateSync_nil _ _ _ E N) as VN.
  rewrite (register_run _ _ _ M).
  destruct (buildUser req w) as [user w1]. cbn [fst snd] in *.
  rewrite save_run. destruct (validateSync user) as [|m ms];
    [|cbn; discriminate].
  destruct VN as [VN _]. specialize (VN eq_refl) as (NE & IE & NN & L).
  rewrite insertOne_run, U.
  destruct (existsb (fun x => sameId x (preSave user)) (users w));
    [cbn; discriminate|].
  destruct (existsb (fun x => sameEmail x (preSave user)) (users w));
    [cbn; discriminate|].
  cbn [fst snd status inserted users oplog]. rewrite U, O.
  intros _. now repeat split.
Qed.

(** A successful registration passed validation. *)
Lemma register_success_valid req now w t :
  fst (register req now w) = mkResponse 200 (JToken t) ->
  missingFields (PostRegister req) = false
  /\ validateSync (fst (buildUser req w)) = [].
Proof.
  intros F.
  destruct (missingFields (PostRegister req)) eqn:M.
  { rewrite (register_missing _ now w M) in F. discriminate. }
  split; [reflexivity|].
  rewrite (register_run _ _ _ M) in F.
  destruct (buildUser req w) as [user w1]. cbn [fst].
  rewrite save_run in F. now destruct (validateSync user).
Qed.

Lemma escapeChar_at_most_6 c : String.length (escapeChar c) <= 6.
Proof. destruct c as [[] [] [] [] [] [] [] []]; vm_compute; lia. Qed.

Lemma escape_at_most_sixfold v :
  String.length (escape v) <= 6 * String.length v.
Proof.
  rewrite escape_substChars.
  induction v as [|c r IH]; cbn [substChars String.length]; [lia|].
  rewrite length_append. pose proof (escapeChar_at_most_6 c). lia.
Qed.

(** X9: the [name] a successful registration persists is the escaped form
    of the trimmed request name: it is at least as long as that name, so
    not empty, and at most six times as long, so of at most 300
    characters; the bound of 50 holds for the name before the hook
    only. *)
Theorem persisted_name_length (req : Body) (now : Z) (w : World) (t : string) :
  fst (register req now w) = mkResponse 200 (JToken t) ->
  let n := nameSetter (fieldValue (body_name req)) in
  exists doc stored,
    users (snd (register req now w)) = (users w ++ [doc])%list
    /\ name doc = Some stored
    /\ stored = escape n
    /\ 1 <= String.length n <= 50
    /\ String.length n <= String.length stored <= 6 * String.length n
    /\ String.length stored <= 300.
Proof.
  intros F. cbv zeta.
  destruct (missingFields (PostRegister req)) eqn:M.
  { rewrite (register_missing _ now w M) in F. discriminate. }
  destruct (buildUser_document req w) as (E & N & _).
  rewrite (register_run _ _ _ M) in F |- *.
  destruct (buildUser req w) as [user w1] eqn:B. cbn [fst snd] in *.
  assert (U1 : users w1 = users w).
  { destruct (buildUser_document req w) as (_ & _ & _ & U & _).
    now rewrite B in U. }
  rewrite save_run in F |- *.
  destruct (validateSync user) as [|m ms] eqn:V; [|discriminate].
  apply (validateSync_nil _ _ _ E N) in V as (_ & _ & NN & L).
  rewrite insertOne_run in F |- *.
  destruct (existsb (fun x => sameId x (preSave user)) (users w1));
    [discriminate|].
  destruct (existsb (fun x => sameEmail x (preSave user)) (users w1));
    [discriminate|].
  set (n := nameSetter (fieldValue (body_name req))) in *.
  exists (preSave user), (escape n). cbn [snd inserted users]. rewrite U1.
  split; [reflexivity|].
  split.
  { rewrite (preSave_name user _ _ E N). unfold n, nameSetter.
    now rewrite trim_idempotent. }
  split; [reflexivity|].
  pose proof (escape_length n). pose proof (escape_at_most_sixfold n).
  assert (1 <= String.length n) by (destruct n; [congruence | simpl; lia]).
  lia.
Qed.

Lemma preSave_credentialed u : credentialed u -> credentialed (preSave u).
Proof.
  intros (s & h & S & Hh & L). destruct (preSave_credentials u) as (_ & A & B).
  exists s, h. rewrite A, B. now repeat split.
Qed.

Lemma buildUser_credentialed req w : credentialed (fst (buildUser req w)).
Proof.
  destruct (buildUser_document req w) as (_ & _ & (s & S & L & Hh) & _).
  exists s, (toHex (derive (fieldValue (body_password req)) s)).
  split; [exact S|]. split; [exact Hh|]. split; [exact L|].
  rewrite toHex_length. now rewrite Nat.mul_comm, Nat.Div0.mod_mul.
Qed.

Lemma handle_credentialed r now w :
  Forall credentialed (users w) ->
  Forall credentialed (users (snd (handle r now w))).
Proof.
  intros I. destruct r as [body|body| |c]; cbn [handle];
    [now rewrite login_users | | exact I | exact I].
  destruct (missingFields (PostRegister body)) eqn:M.
  { now rewrite register_missing. }
  destruct (register_cases body now w M) as [(_ & U & _)|(err & _ & U)];
    rewrite U; [|exact I].
  apply Forall_app. split; [exact I|].
  constructor; [|constructor].
  apply preSave_credentialed, buildUser_credentialed.
Qed.

(** X10: every document a registration writes has a salt of 32 digits and
    a hash; so, on a collection that started with such documents, whatever
    requests were served, every stored document has them, and
    [validPassword] returns for every stored document and every candidate
    string: [pbkdf2Sync] is never given a missing salt. *)
Theorem served_users_credentialed (rs : list (Request * Z)) (w : World) :
  Forall credentialed (users w) ->
  Forall credentialed (users (serve rs w))
  /\ (forall user password,
        In user (users (serve rs w)) ->
        exists b, validPassword user password = Return b).
Proof.
  intros I.
  assert (C : Forall credentialed (users (serve rs w))).
  { revert w I. induction rs as [|[r t] rest IH]; intros w I; cbn [serve].
    - exact I.
    - apply IH. now apply handle_credentialed. }
  split; [exact C|]. rewrite Forall_forall in C.
  intros user password In_. destruct (C _ In_) as (s & h & S & Hh & _).
  rewrite (validPassword_stored _ _ _ _ S Hh). now eexists.
Qed.

(** X11: a second [setPassword] replaces the credentials: the salt comes
    from the 16 bytes of entropy after those the first call consumed, the
    new password is accepted, and the old one is refused whenever its key
    under the new salt differs from the new password's. *)
Theorem setPassword_again (u : User) (first second : string) (w : World) :
  let u1 := fst (setPassword u first w) in
  let w1 := snd (setPassword u first w) in
  let u2 := fst (setPassword u1 second w1) in
  let w2 := snd (setPassword u1 second w1) in
  let s2 := toHex (map (source (entropy w))
                     (seq (cursor (entropy w) + 16) 16)) in
  salt u2 = Some s2
  /\ hash u2 = Some (toHex (derive second s2))
  /\ validPassword u2 second = Return true
  /\ (derive first s2 <> derive second s2 ->
      validPassword u2 first = Return false)
  /\ cursor (entropy w2) = cursor (entropy w) + 32
  /\ _id u2 = _id u /\ email u2 = email u /\ name u2 = name u.
Proof.
  cbv zeta. rewrite (setPassword_run u first w). cbn [fst snd].
  rewrite setPassword_run. cbn [fst snd _id email name entropy cursor source].
  unfold saltBytes at 1 2 3. cbn [entropy cursor source].
  set (s2 := toHex (map (source (entropy w))
                      (seq (cursor (entropy w) + 16) 16))).
  split; [reflexivity|]. split; [reflexivity|].
  split.
  { erewrite validPassword_stored; [|reflexivity|reflexivity].
    now rewrite String.eqb_refl. }
  split.
  { intros D. erewrite validPassword_stored; [|reflexivity|reflexivity].
    f_equal. apply String.eqb_neq. intros K. apply toHex_injective in K.
    apply D. symmetry. exact K. }
  split; [lia|]. now repeat split.
Qed.
End WithPlatform.

End SessionFacts.

(** ** [getUser] *)

Module TripsGateFacts.
Import Model Monad JsString UserModel Authentication TripsGate.
Import JsStringFacts SaveFacts AuthenticationFacts SessionFacts.

Section WithPlatform.
Context {env : Platform}.

Lemma getUser_run {A} (auth : option Claims) (callback : option string -> M A)
    (w : World) :
  getUser auth callback w
  = match authEmail auth with
    | None => (Unanswered, w)
    | Some address =>
        match lookup (users w) address with
        | None =>
            (Answered userNotFound,
             logged (OpFindOneUser (emailSetter address)) w)
        | Some user =>
            let (a, w') :=
              callback (name user)
                (logged (OpFindOneUser (emailSetter address)) w) in
            (Continued a, w')
        end
    end.
Proof.
  unfold getUser. destruct (authEmail auth) as [address|]; [|reflexivity].
  unfold findOne, bind, logOp, getUsers, ret. cbn [fst snd logged users].
  destruct (lookup (users w) address); reflexivity.
Qed.

Lemma authEmail_some auth address :
  authEmail auth = Some address
  <-> exists c, auth = Some c /\ claim_email c = Some address
                /\ address <> EmptyString.
Proof.
  unfold authEmail. split.
  - destruct auth as [c|]; [|discriminate].
    destruct (claim_email c) as [[|x r]|] eqn:E; cbn; try discriminate.
    intros K. injection K as <-. exists c. now repeat split.
  - intros (c & -> & E & NE). rewrite E. cbn.
    destruct address; [congruence | reflexivity].
Qed.

(** X12: [getUser] runs its callback, on the name of the stored user, only
    for a request whose claims carry a non-empty [email] that selects a
    stored user; for an [email] that selects none it answers 404
    "User not found"; without claims or without [email] it sends no
    answer and no operation to the database. *)
Theorem getUser_cases {A} (auth : option Claims)
    (callback : option string -> M A) (w : World) :
  (forall a w',
     getUser auth callback w = (Continued a, w')
     <-> exists address user,
           authEmail auth = Some address
           /\ lookup (users w) address = Some user
           /\ callback (name user)
                (logged (OpFindOneUser (emailSetter address)) w) = (a, w'))
  /\ (forall r w',
        getUser auth callback w = (Answered r, w')
        <-> exists address,
              authEmail auth = Some address
              /\ lookup (users w) address = None
              /\ r = userNotFound
              /\ w' = logged (OpFindOneUser (emailSetter address)) w)
  /\ (forall w',
        getUser auth callback w = (Unanswered, w')
        <-> authEmail auth = None /\ w' = w).
Proof.
  rewrite getUser_run.
  destruct (authEmail auth) as [address|] eqn:AE.
  - destruct (lookup (users w) address) as [user|] eqn:L.
    + destruct (callback (name user)
                  (logged (OpFindOneUser (emailSetter address)) w))
        as [a0 w0] eqn:C.
      split; [|split].
      * intros a w'. split.
        -- intros K. injection K as K1 K2. subst a0 w0.
           exists address, user. split; [reflexivity|]. split; assumption.
        -- intros (ad & u & X & Y & Z). injection X as <-.
           rewrite L in Y. injection Y as <-.
           rewrite C in Z. now injection Z as <- <-.
      * intros r w'. split; [discriminate|].
        intros (ad & X & Y & _). injection X as <-. congruence.
      * intros w'. split; [discriminate | intros [X _]; discriminate].
    + split; [|split].
      * intros a w'. split; [discriminate|].
        intros (ad & u & X & Y & _). injection X as <-. congruence.
      * intros r w'. split.
        -- intros K. injection K as <- <-. exists address.
           split; [reflexivity|]. split; [assumption|]. now split.
        -- intros (ad & X & _ & -> & ->). now injection X as <-.
      * intros w'. split; [discriminate | intros [X _]; discriminate].
  - split; [|split].
    + intros a w'. split; [discriminate|].
      intros (ad & u & X & _). discriminate.
    + intros r w'. split; [discriminate|].
      intros (ad & X & _). discriminate.
    + intros w'. split.
      * intros K. now injection K as <-.
      * now intros [_ ->].
Qed.

Lemma emailSetter_idempotent v : emailSetter (emailSetter v) = emailSetter v.
Proof.
  unfold emailSetter at 1.
  now rewrite emailSetter_lowercased, emailSetter_trimmed.
Qed.

Lemma canonical_emailSetter e : canonicalEmail e -> emailSetter e = e.
Proof. intros [L T]. unfold emailSetter. now rewrite L, T. Qed.

(** X13: the claims of a token minted for a stored document whose [email]
    is non-empty and in the form the schema gives it pass [getUser]: the
    callback is run on that document's name. *)
Theorem getUser_with_token_of_stored_user {A} (d : User) (e : string)
    (now : Z) (callback : option string -> M A) (w : World) :
  NoDup (map email (users w)) ->
  In d (users w) ->
  email d = Some e -> e <> EmptyString -> canonicalEmail e ->
  getUser (Some (jwtPayload d now)) callback w
  = (let (a, w') := callback (name d) (logged (OpFindOneUser e) w) in
     (Continued a, w')).
Proof.
  intros N I E NE C. rewrite getUser_run.
  assert (AE : authEmail (Some (jwtPayload d now)) = Some e).
  { apply authEmail_some. exists (jwtPayload d now). now repeat split. }
  rewrite AE, (canonical_emailSetter e C).
  rewrite (lookup_found (users w) e d N I); [reflexivity|].
  now rewrite (canonical_emailSetter e C).
Qed.

(** X14: the claims of the token a registration returns do not pass
    [getUser] when the pre-save hook rewrote the address: unless another
    stored document has the address as set, the answer is 404
    "User not found". *)
Theorem getUser_with_registration_token {A} (req : Body) (now : Z)
    (w : World) (t : string) (callback : option string -> M A) :
  fst (register req now w) = mkResponse 200 (JToken t) ->
  persistedEmail (fieldValue (body_email req))
  <> emailSetter (fieldValue (body_email req)) ->
  (forall d, In d (users w) ->
             email d <> Some (emailSetter (fieldValue (body_email req)))) ->
  let claims := jwtPayload (fst (buildUser req w)) now in
  t = Jwt.sign claims JWT_SECRET
  /\ fst (getUser (Some claims) callback (snd (register req now w)))
     = Answered userNotFound.
Proof.
  intros F R Fresh. cbv zeta.
  destruct (Router.missingFields (Router.PostRegister req)) eqn:M.
  { rewrite (register_missing _ now w M) in F. discriminate. }
  destruct (register_cases req now w M) as [(F' & U & _)|(err & F' & _)];
    [|rewrite F' in F; discriminate].
  set (user := fst (buildUser req w)) in *.
  destruct (buildUser_document req w) as (E & N & _). fold user in E, N.
  assert (T : t = generateJwt user now).
  { rewrite F' in F. clearbody user. now injection F. }
  split; [exact T|].
  pose proof (preSave_email user _ _ E N) as PE.
  fold (persistedEmail (fieldValue (body_email req))) in PE.
  destruct (register_success_valid _ _ _ _ F) as [_ V].
  fold user in V. apply (validateSync_nil user _ _ E N) in V as (NE & _).
  rewrite getUser_run.
  assert (AE : authEmail (Some (jwtPayload user now))
               = Some (emailSetter (fieldValue (body_email req)))).
  { apply authEmail_some. exists (jwtPayload user now). now repeat split. }
  rewrite AE.
  replace (lookup (users (snd (register req now w)))
             (emailSetter (fieldValue (body_email req))))
    with (@None User); [reflexivity|].
  symmetry. rewrite U. unfold lookup. rewrite emailSetter_idempotent.
  rewrite find_app_last.
  - rewrite PE. cbn [optEqb].
    destruct (String.eqb_spec (persistedEmail (fieldValue (body_email req)))
                (emailSetter (fieldValue (body_email req))));
      [contradiction | reflexivity].
  - apply not_true_is_false. intros X. apply existsb_exists in X as (d & I & X).
    apply (Fresh d I). destruct (email d) as [e|]; [|discriminate].
    cbn [optEqb] in X. apply String.eqb_eq in X. now subst.
Qed.
End WithPlatform.

End TripsGateFacts.

(** ** [atob] and the admin client *)

Module ClientFacts.
Import Model Buffer JsString UserModel Jwt Base64 AdminClient.
Import JsStringFacts BufferFacts Base64UrlFacts JwtFacts.


Lemma urlOnly_value c : urlOnly c = true -> Base64.value c = None.
Proof. by_cases_on_char c. Qed.

Lemma isDigit_not_space c :
  Base64Url.isDigit c = true -> isAsciiWhitespace c = false.
Proof. by_cases_on_char c. Qed.

Lemma isDigit_not_equals c :
  Base64Url.isDigit c = true -> Ascii.eqb c "=" = false.
Proof. by_cases_on_char c. Qed.

Lemma removeWhitespace_digits s :
  allChars Base64Url.isDigit s = true -> removeWhitespace s = s.
Proof.
  induction s as [|c r IH]; cbn; [reflexivity|].
  intros E. apply andb_true_iff in E as [A B].
  now rewrite (isDigit_not_space c A), (IH B).
Qed.

Lemma dropFinalEquals_digits s :
  allChars Base64Url.isDigit s = true -> dropFinalEquals s = s.
Proof.
  induction s as [|c r IH]; [reflexivity|].
  intros E. cbn [allChars] in E. apply andb_true_iff in E as [A B].
  destruct r as [|d r'].
  - cbn. now rewrite (isDigit_not_equals c A).
  - change (dropFinalEquals (String c (String d r')))
      with (String c (dropFinalEquals (String d r'))).
    now rewrite (IH B).
Qed.

(** The length of an encoding is never 1 modulo 4. *)
Lemma encode_length_mod buf :
  (String.length (Base64Url.encode buf) mod 4 =? 1)%nat = false.
Proof.
  assert (G : forall n (l : Buffer),
             List.length l <= n ->
             (String.length (Base64Url.encode l) mod 4 =? 1)%nat = false).
  { induction n as [|n IH]; intros l Hl.
    - destruct l; [reflexivity | simpl in Hl; lia].
    - destruct l as [|a [|b [|c r]]]; [reflexivity..|].
      cbn [Base64Url.encode String.length].
      specialize (IH r). simpl in Hl. specialize (IH ltac:(lia)).
      apply Nat.eqb_neq. apply Nat.eqb_neq in IH.
      replace (S (S (S (S (String.length (Base64Url.encode r))))))
        with (String.length (Base64Url.encode r) + 1 * 4) by lia.
      now rewrite Nat.Div0.mod_add. }
  apply (G (List.length buf)). lia.
Qed.


(** A string with '-' or '_' is refused by [atob]'s decoder. *)
Lemma decodeGroups_urlOnly s :
  anyChar urlOnly s = true -> decodeGroups s = None.
Proof.
  assert (G : forall n s,
             String.length s <= n -> anyChar urlOnly s = true ->
             decodeGroups s = None).
  { induction n as [|n IH]; intros t Ht E.
    - destruct t; [discriminate | simpl in Ht; lia].
    - destruct t as [|c0 [|c1 [|c2 [|c3 r]]]];
        [discriminate | reflexivity | | |].
      + cbn [anyChar] in E. cbn [decodeGroups].
        destruct (urlOnly c0) eqn:U0; [now rewrite (urlOnly_value _ U0)|].
        destruct (urlOnly c1) eqn:U1; [|discriminate].
        rewrite (urlOnly_value _ U1). now destruct (Base64.value c0).
      + cbn [anyChar] in E. cbn [decodeGroups].
        destruct (urlOnly c0) eqn:U0; [now rewrite (urlOnly_value _ U0)|].
        destruct (urlOnly c1) eqn:U1;
          [rewrite (urlOnly_value _ U1); now destruct (Base64.value c0)|].
        destruct (urlOnly c2) eqn:U2; [|discriminate].
        rewrite (urlOnly_value _ U2).
        now destruct (Base64.value c0), (Base64.value c1).
      + cbn [anyChar] in E. cbn [decodeGroups].
        destruct (urlOnly c0) eqn:U0; [now rewrite (urlOnly_value _ U0)|].
        destruct (urlOnly c1) eqn:U1;
          [rewrite (urlOnly_value _ U1); now destruct (Base64.value c0)|].
        destruct (urlOnly c2) eqn:U2;
          [rewrite (urlOnly_value _ U2);
           now destruct (Base64.value c0), (Base64.value c1)|].
        destruct (urlOnly c3) eqn:U3;
          [rewrite (urlOnly_value _ U3);
           now destruct (Base64.value c0), (Base64.value c1),
             (Base64.value c2)|].
        cbn [orb] in E. rewrite (IH r); [|simpl in Ht; lia|exact E].
        now destruct (Base64.value c0), (Base64.value c1),
          (Base64.value c2), (Base64.value c3). }
  intros E. apply (G (String.length s)); [lia | exact E].
Qed.

Lemma allChars_weaken_common s :
  allChars commonDigit s = true -> allChars Base64Url.isDigit s = true.
Proof.
  apply allChars_weaken. intros c E. unfold commonDigit in E.
  now apply andb_true_iff in E as [E _].
Qed.

(** [atob] on the base64url rendering of a buffer. *)
Lemma atob_encode buf :
  atob (Base64Url.encode buf)
  = match decodeGroups (Base64Url.encode buf) with
    | Some b => Return (string_of_list_byte b)
    | None => Throw invalidCharacter
    end.
Proof.
  unfold atob. cbv zeta.
  rewrite (removeWhitespace_digits _ (encode_digits buf)).
  rewrite !(dropFinalEquals_digits _ (encode_digits buf)).
  destruct (String.length (Base64Url.encode buf) mod 4 =? 0)%nat;
    now rewrite encode_length_mod.
Qed.

Section WithPlatform.
Context {env : Platform}.

Lemma secondSegment_sign c secret :
  secondSegment (sign c secret) = payloadSegment c.
Proof. unfold secondSegment. now rewrite splitOn_sign. Qed.


Lemma payloadOf_urlOnly c secret :
  anyChar urlOnly (payloadSegment c) = true ->
  payloadOf (sign c secret) = Throw invalidCharacter.
Proof.
  intros E. unfold payloadOf. rewrite secondSegment_sign.
  unfold payloadSegment in *. now rewrite atob_encode, (decodeGroups_urlOnly _ E).
Qed.
Lemma getToken_saveToken (st : Storage) token :
  getToken (saveToken st token) = Some token.
Proof. reflexivity. Qed.

Lemma isLoggedIn_token st token now :
  getToken st = Some token ->
  isLoggedIn st now
  = match payloadOf token with
    | Throw e => Throw e
    | Return payload => Return (now <? 1000 * claim_exp payload)%Z
    end.
Proof. intros G. unfold isLoggedIn. now rewrite G. Qed.


Lemma digits_partition s :
  allChars Base64Url.isDigit s = true ->
  allChars commonDigit s = negb (anyChar urlOnly s).
Proof.
  induction s as [|x r IH]; cbn [allChars anyChar]; [reflexivity|].
  intros E. apply andb_true_iff in E as [A B].
  rewrite (IH B). unfold commonDigit. rewrite A.
  now destruct (urlOnly x), (anyChar urlOnly r).
Qed.

(** X16: for a stored token signed by the server whose payload segment
    holds a '-' or a '_', as base64url allows, [atob] fails and both
    [isLoggedIn] and [getCurrentUser] throw; every payload segment either
    holds such a digit or consists of digits [atob] accepts. *)
Theorem client_refuses_url_digits (st : Storage) (c : Claims)
    (secret : string) (now : Z) :
  getToken st = Some (sign c secret) ->
  anyChar urlOnly (payloadSegment c) = true ->
  isLoggedIn st now = Throw invalidCharacter
  /\ getCurrentUser st now = Throw invalidCharacter
  /\ (forall c',
        allChars commonDigit (payloadSegment c')
        = negb (anyChar urlOnly (payloadSegment c'))).
Proof.
  intros G U.
  assert (L : isLoggedIn st now = Throw invalidCharacter).
  { now rewrite (isLoggedIn_token _ _ _ G), (payloadOf_urlOnly _ _ U). }
  split; [exact L|]. split.
  - unfold getCurrentUser. now rewrite L.
  - intros c'. apply digits_partition. apply encode_digits.
Qed.
End WithPlatform.

(** X17: the token is kept under one key of the storage: [getToken]
    returns what [saveToken] stored last; after [logout] there is no
    token, [isLoggedIn] is false and [getCurrentUser] is [null], whatever
    was stored; no other key is touched. *)
Theorem token_storage {env : Platform} (st : Storage) (token key : string)
    (now : Z) :
  getToken (saveToken st token) = Some token
  /\ getToken (logout (saveToken st token)) = None
  /\ isLoggedIn (logout st) now = Return false
  /\ getCurrentUser (logout st) now = Return None
  /\ (key <> "travlr-token" ->
      getItem (saveToken st token) key = getItem st key
      /\ getItem (logout st) key = getItem st key).
Proof.
  repeat split; try reflexivity.
  - unfold saveToken, setItem, getItem.
    destruct (String.eqb_spec key "travlr-token"); [contradiction|reflexivity].
  - unfold logout, removeItem, getItem.
    destruct (String.eqb_spec key "travlr-token"); [contradiction|reflexivity].
Qed.

End ClientFacts.

(** ** The client against the server *)

Module EndToEndFacts.
Import Model Monad JsString Validator UserModel Authentication Router Jwt.
Import Base64 AdminClient.
Import JsStringFacts SaveFacts AuthenticationFacts SessionFacts ClientFacts.

Section WithPlatform.
Context {env : Platform}.

(** The answers of the two authentication handlers: 200 with a token, or
    400, 401 or 404 without one. *)
Lemma authentication_answers body now w res :
  res = fst (login body now w) \/ res = fst (register body now w) ->
  (exists t, res = mkResponse 200 (JToken t))
  \/ ((status res = 400 \/ status res = 401 \/ status res = 404)%Z
      /\ tokenOf (json res) = None).
Proof.
  intros [->| ->].
  - destruct (missingFields (PostLogin body)) eqn:M.
    + rewrite (login_missing _ now w M). right. cbn. tauto.
    + destruct (login_present _ M) as (u & p & E & P & TU & TP).
      rewrite (login_run _ _ _ _ _ E P TU TP). cbn [fst].
      destruct (lookup (users w) u) as [user|]; [|right; cbn; tauto].
      destruct (validPassword user p) as [[|]|err];
        [left; now eexists | right; cbn; tauto | right; cbn; tauto].
  - destruct (missingFields (PostRegister body)) eqn:M.
    + rewrite (register_missing _ now w M). right. cbn. tauto.
    + destruct (register_cases body now w M) as [(F & _)|(err & F & _)];
        rewrite F; [left; now eexists | right; cbn; tauto].
Qed.

(** X18: the client keeps the token of an authentication answer exactly
    when the server answered 200: then the answer carries a token and
    that token is stored; on 400, 401 or 404 the request is rejected, the
    storage is left alone, and the answer carries no token. *)
Theorem client_keeps_token_of_200 (body : Body) (now : Z) (w : World)
    (res : Response) (st : Storage) :
  res = fst (login body now w) \/ res = fst (register body now w) ->
  (status res = 200%Z
   /\ exists t, json res = JToken t
                /\ storeAnswer st res = Return (saveToken st t)
                /\ getToken (saveToken st t) = Some t)
  \/ (status res <> 200%Z
      /\ tokenOf (json res) = None
      /\ storeAnswer st res = Throw (JsError "HttpErrorResponse")).
Proof.
  intros R. destruct (authentication_answers body now w res R)
    as [(t & ->)|([S|[S|S]] & T)].
  - left. split; [reflexivity|]. exists t. now repeat split.
  - right. unfold storeAnswer. rewrite S. cbn. split; [discriminate|]. now split.
  - right. unfold storeAnswer. rewrite S. cbn. split; [discriminate|]. now split.
  - right. unfold storeAnswer. rewrite S. cbn. split; [discriminate|]. now split.
Qed.

(** X20: [login] issues a token only for valid credentials: when it
    answers 200, the request carries an address and a password, some
    stored document has the address, as the schema setter casts it, as its
    [email], its [validPassword] accepts the password, and the token is
    the one [generateJwt] mints for that document.  Whatever it answers,
    [login] changes neither collection. *)
Theorem login_token_only_for_valid_credentials (req : Body) (now : Z)
    (w : World) :
  (status (fst (login req now w)) = 200%Z ->
   exists username password user,
     body_email req = Some username /\ body_password req = Some password
     /\ In user (users w)
     /\ email user = Some (emailSetter username)
     /\ validPassword user password = Return true
     /\ fst (login req now w)
        = mkResponse 200 (JToken (generateJwt user now)))
  /\ users (snd (login req now w)) = users w
  /\ trips (snd (login req now w)) = trips w.
Proof.
  destruct (missingFields (PostLogin req)) eqn:M.
  { rewrite (login_missing _ now w M). cbn.
    split; [discriminate | now split]. }
  destruct (login_present _ M) as (u & p & E & P & TU & TP).
  rewrite (login_run _ _ _ _ _ E P TU TP). cbn [fst snd].
  split; [|now split].
  destruct (lookup (users w) u) as [user|] eqn:L; [|cbn; discriminate].
  unfold lookup in L. apply find_some in L as [I X].
  apply optEqb_eq in X.
  destruct (validPassword user p) as [[|]|err] eqn:V; cbn; try discriminate.
  intros _. exists u, p, user. now repeat split.
Qed.
End WithPlatform.

End EndToEndFacts.

(** ** The further theorems at work on the concrete platform *)

Module MoreExamples.
Import Model Monad JsString Validator UserModel Authentication Router Jwt.
Import Base64 AdminClient TripsGate StoreProps Demo Scenario.
Import SessionFacts TripsGateFacts ClientFacts EndToEndFacts.

#[local] Existing Instance platform.

Lemma login_valid_credentials_example :
  fst (login carolRight noon world1)
  = mkResponse 200 (JToken (generateJwt carol noon)).
Proof.
  destruct (login_valid_credentials (env := platform) carolRight noon world1
              " CAROL@gmail.com" "tea" carol
              eq_refl eq_refl eq_refl eq_refl eq_refl) as (A & _).
  now rewrite A.
Defined.

Lemma aliceRegistered :
  fst (register alice noon world0)
  = mkResponse 200
      (JToken (generateJwt (fst (buildUser alice world0)) noon)).
Proof. vm_compute. reflexivity. Defined.

Lemma login_user_without_salt_example :
  status (fst (login bobLogin noon bobOnly)) = 404%Z
  /\ tokenOf (json (fst (login bobLogin noon bobOnly))) = None.
Proof.
  destruct (login_user_without_salt (env := platform) bobLogin noon bobOnly
              "Bob@example.com" bob eq_refl eq_refl eq_refl eq_refl)
    as ((m & F) & T & _).
  split; [now rewrite F | exact T].
Defined.

Lemma register_then_login_example :
  exists doc,
    email doc = Some "alice@gmail.com"
    /\ fst (login aliceUpper (noon + 1000) (snd (register alice noon world0)))
       = mkResponse 200 (JToken (generateJwt doc (noon + 1000))).
Proof.
  destruct (register_then_login (env := platform) alice noon world0 _ aliceUpper (noon + 1000)
              (String "160" "ALICE@gmail.com ") aliceRegistered eq_refl)
    as (doc & _ & E & L).
  - discriminate.
  - vm_compute. reflexivity.
  - reflexivity.
  - exists doc. split; [exact E | exact L].
Defined.

Lemma login_with_rewritten_address_example :
  fst (login aliceAsRegistered (noon + 1000)
         (snd (register alice noon world0)))
  = mkResponse 401 (JMessage "Incorrect username.").
Proof.
  apply (login_with_rewritten_address (env := platform) alice noon world0 _ aliceAsRegistered
           (noon + 1000) aliceRegistered).
  - vm_compute. discriminate.
  - intros d [].
  - reflexivity.
  - reflexivity.
Defined.

Lemma users_keys_stay_unique_example :
  uniqueKeys (users (serve requests world0)).
Proof.
  apply (users_keys_stay_unique (env := platform)). split; constructor.
Defined.

Lemma register_invalid_input_example :
  exists messages,
    fst (register eve noon world1)
    = mkResponse 400 (JError (ValidationError messages))
    /\ In "Please enter a valid email" messages
    /\ In "Path `name` is required." messages.
Proof.
  destruct (register_invalid_input (env := platform) eve noon world1 eq_refl
              (or_intror (or_introl eq_refl)))
    as (messages & F & _ & E & N & _).
  exists messages. split; [exact F|]. split.
  - apply E; [discriminate | reflexivity].
  - apply N. reflexivity.
Defined.

Lemma register_succeeds_only_if_example :
  isEmail "alice+travel@gmail.com" = true
  /\ users (snd (register alice noon world0))
     = [preSave (fst (buildUser alice world0))].
Proof.
  destruct (register_succeeds_only_if (env := platform) alice noon world0)
    as ((_ & _ & IE & _) & _ & U & _).
  - now rewrite aliceRegistered.
  - split; [exact IE | exact U].
Defined.

Lemma persisted_name_length_example :
  exists doc,
    users (snd (register alice noon world0)) = [doc]
    /\ name doc = Some "Alice &lt;A&amp;B&gt;".
Proof.
  destruct (persisted_name_length (env := platform) alice noon world0 _ aliceRegistered)
    as (doc & stored & U & N & S & _).
  exists doc. split; [exact U|]. rewrite N, S. reflexivity.
Defined.

Lemma carolCredentialed : Forall credentialed (users world1).
Proof.
  constructor; [|constructor].
  eexists _, _. split; [reflexivity|]. split; [reflexivity|].
  split; reflexivity.
Defined.

Lemma served_users_credentialed_example :
  Forall credentialed (users (serve requests world1))
  /\ exists b, validPassword carol "coffee" = Return b.
Proof.
  destruct (served_users_credentialed (env := platform) requests world1
              carolCredentialed) as (C & V).
  split; [exact C|]. apply V. now left.
Defined.

Lemma getUser_with_token_of_stored_user_example :
  fst (getUser (Some (jwtPayload carol noon)) (fun n => ret n) world1)
  = Continued (Some "Carol").
Proof.
  rewrite (getUser_with_token_of_stored_user (env := platform) carol "carol@gmail.com" noon
             (fun n => ret n) world1).
  - reflexivity.
  - repeat constructor. intros [].
  - now left.
  - reflexivity.
  - discriminate.
  - split; reflexivity.
Defined.

Lemma getUser_with_registration_token_example :
  fst (getUser (Some (jwtPayload (fst (buildUser alice world0)) noon))
         (fun n => ret n) (snd (register alice noon world0)))
  = Answered userNotFound.
Proof.
  destruct (getUser_with_registration_token (env := platform) alice noon world0 _
              (fun n => ret n) aliceRegistered) as (_ & G).
  - vm_compute. discriminate.
  - intros d [].
  - exact G.
Defined.


Lemma client_refuses_url_digits_example :
  isLoggedIn
    (saveToken emptyStorage (sign (jwtPayload dan noon) "demo-secret")) noon
  = Throw invalidCharacter.
Proof.
  destruct (client_refuses_url_digits (env := platform)
              (saveToken emptyStorage
                 (sign (jwtPayload dan noon) "demo-secret"))
              (jwtPayload dan noon) "demo-secret" noon
              (getToken_saveToken _ _))
    as (L & _).
  - vm_compute. reflexivity.
  - exact L.
Defined.

Lemma client_keeps_token_of_200_example :
  storeAnswer emptyStorage (fst (login carolWrong noon world1))
  = Throw (JsError "HttpErrorResponse").
Proof.
  destruct (client_keeps_token_of_200 (env := platform) carolWrong noon world1
              (fst (login carolWrong noon world1)) emptyStorage
              (or_introl eq_refl))
    as [(S & _)|(_ & _ & T)].
  - vm_compute in S. discriminate S.
  - exact T.
Defined.


Lemma login_token_only_for_valid_credentials_example :
  exists user,
    In user (users world1)
    /\ validPassword user "tea" = Return true
    /\ fst (login carolRight noon world1)
       = mkResponse 200 (JToken (generateJwt user noon)).
Proof.
  destruct (login_token_only_for_valid_credentials (env := platform)
              carolRight noon world1) as (T & _).
  destruct T as (u & p & user & _ & P & I & _ & V & F);
    [vm_compute; reflexivity|].
  injection P as <-. exists user. split; [exact I|]. split; [exact V | exact F].
Defined.

End MoreExamples.
